(** * email_profiler.py: the control logic of the email assistant

    A shallow embedding of [src/email_profiler.py]: the sender filter
    ([check_new_emails], [email_database_creation]), the confidence gate and
    answer composition ([get_answer_for_email]), the draft/send dispatch and
    the poll loop ([email_assistant_workflow], [wait_with_quit]).

    Calls into the email provider, the knowledge base manager and the
    terminal are external: each one appends an [event] to a trace and gets
    its answer (a value or an exception) from a [World], which may depend on
    everything that happened before.  Logging is not modelled. *)

From Stdlib Require Import PrimFloat Ascii String.
From stdpp Require Import base option list strings gmap.


(** ** Python exceptions and outcomes *)

Inductive exn :=
| ValueError (msg : string)
| KeyError (key : string)
| IndexError (msg : string)
| AttributeError (attr : string)
| UnboundLocalError (var : string)
| KeyboardInterrupt
| CapabilityError (msg : string).

(** The outcome of a Python expression or statement.  [Unmodelled] marks a
    behaviour of Python that this embedding does not cover (parts of the
    [str.format] mini-language); it is neither a return nor an exception. *)
Inductive outcome (A : Type) :=
| Ret (a : A)
| Raise (e : exn)
| Unmodelled.
Arguments Ret {A} a.
Arguments Raise {A} e.
Arguments Unmodelled {A}.

(** ** [str.format] with the keyword arguments of [get_answer_for_email]

    The call in the source is
    [answer_pattern.format(sender=..., context_results=...)]: no positional
    argument, two keyword arguments, both of type [str].  The scanner follows
    CPython's [MarkupIterator_next] and [parse_field]. *)
Module PyFormat.

Definition is_digit (c : ascii) : bool :=
  let n := nat_of_ascii c in (48 <=? n)%nat && (n <=? 57)%nat.

Fixpoint all_digits (s : string) : bool :=
  match s with
  | EmptyString => true
  | String c r => is_digit c && all_digits r
  end.

(** The part of [s] before the first ["."], and what follows that dot. *)
Fixpoint split_dot (s : string) : string * option string :=
  match s with
  | EmptyString => (EmptyString, None)
  | String c r =>
      if Ascii.eqb c "." then (EmptyString, Some r)
      else let '(a, b) := split_dot r in (String c a, b)
  end.

(** Public attributes of [str]; names with a leading underscore are treated
    alike.  Reading one of them through a replacement field renders a
    method object, which is outside the model. *)
Definition str_public_attrs : list string :=
  [ "capitalize"; "casefold"; "center"; "count"; "encode"; "endswith";
    "expandtabs"; "find"; "format"; "format_map"; "index"; "isalnum";
    "isalpha"; "isascii"; "isdecimal"; "isdigit"; "isidentifier";
    "islower"; "isnumeric"; "isprintable"; "isspace"; "istitle";
    "isupper"; "join"; "ljust"; "lower"; "lstrip"; "maketrans";
    "partition"; "removeprefix"; "removesuffix"; "replace"; "rfind";
    "rindex"; "rjust"; "rpartition"; "rsplit"; "rstrip"; "split";
    "splitlines"; "startswith"; "strip"; "swapcase"; "title";
    "translate"; "upper"; "zfill" ].

Definition str_has_attr (a : string) : bool :=
  match a with
  | String "_" _ => true
  | _ => existsb (String.eqb a) str_public_attrs
  end.

(** [getattr] chain applied to a [str] value: [rest] is the text after the
    first dot of the field name. *)
Definition getattr_str (rest : string) : outcome string :=
  let '(a, _) := split_dot rest in
  match a with
  | EmptyString => Raise (ValueError "Empty attribute in format string")
  | _ => if str_has_attr a then Unmodelled else Raise (AttributeError a)
  end.

(** Keyword arguments of the call. *)
Record kwargs := { kw_sender : string; kw_context_results : string }.

Definition lookup_kw (kw : kwargs) (name : string) : outcome string :=
  if String.eqb name "sender" then Ret (kw_sender kw)
  else if String.eqb name "context_results" then Ret (kw_context_results kw)
  else Raise (KeyError name).

(** A digit string without its leading zeros. *)
Fixpoint drop_zeros (s : string) : string :=
  match s with
  | String c r => if Ascii.eqb c "0" then drop_zeros r else s
  | EmptyString => EmptyString
  end.

(** The index a field name of digits stands for, as [%zd] prints it.  The
    empty name is the first automatically numbered field, index 0. *)
Definition index_text (digits : string) : string :=
  match drop_zeros digits with
  | EmptyString => "0"
  | t => t
  end.

(** The message of the [IndexError] of CPython 3.8 and later. *)
Definition index_error (digits : string) : exn :=
  IndexError ("Replacement index " +:+ index_text digits +:+
              " out of range for positional args tuple").

(** [get_field_object] followed by [format(obj, "")]. *)
Definition render_field (kw : kwargs) (field_name : string) : outcome string :=
  let '(first, rest) := split_dot field_name in
  if all_digits first then
    (* empty name: automatic numbering; digits: explicit index.  There is
       no positional argument. *)
    if (String.length first <=? 18)%nat
    then Raise (index_error first)
    else Unmodelled
  else
    match lookup_kw kw first with
    | Ret v =>
        match rest with
        | None => Ret v
        | Some r => getattr_str r
        end
    | o => o
    end.

Definition cons_out (c : ascii) (o : outcome string) : outcome string :=
  match o with
  | Ret t => Ret (String c t)
  | o => o
  end.

Definition app_out (a : string) (o : outcome string) : outcome string :=
  match o with
  | Ret t => Ret (a +:+ t)
  | o => o
  end.

(** The formatting loop, one character at a time.  [field] is [None] in
    literal text and [Some name] inside a replacement field, [name] being
    the part of the field name read so far.  Conversions ([!r]), format
    specifications ([:...]) and indexing ([[...]]) are not covered. *)
Fixpoint format_from (kw : kwargs) (field : option string) (s : string)
  : outcome string :=
  match field, s with
  | None, EmptyString => Ret EmptyString
  | None, String c r =>
      if Ascii.eqb c "{" then
        match r with
        | EmptyString =>
            Raise (ValueError "Single '{' encountered in format string")
        | String d r' =>
            if Ascii.eqb d "{" then cons_out "{" (format_from kw None r')
            else format_from kw (Some EmptyString) r
        end
      else if Ascii.eqb c "}" then
        match r with
        | EmptyString =>
            Raise (ValueError "Single '}' encountered in format string")
        | String d r' =>
            if Ascii.eqb d "}" then cons_out "}" (format_from kw None r')
            else Raise (ValueError "Single '}' encountered in format string")
        end
      else cons_out c (format_from kw None r)
  | Some name, EmptyString =>
      Raise (ValueError "expected '}' before end of string")
  | Some name, String c r =>
      if Ascii.eqb c "}" then
        match render_field kw name with
        | Ret v => app_out v (format_from kw None r)
        | o => o
        end
      else if Ascii.eqb c "{" then
        Raise (ValueError "unexpected '{' in field name")
      else if Ascii.eqb c "[" || Ascii.eqb c ":" || Ascii.eqb c "!" then
        Unmodelled
      else format_from kw (Some (name +:+ String c EmptyString)) r
  end.

Definition format (template : string) (kw : kwargs) : outcome string :=
  format_from kw None template.

End PyFormat.

(** ** Data model *)

(** [ragora]'s [EmailAddress]: the address is a [str]. *)
Record EmailAddress := {
  email : string;
  display_name : option string
}.

(** [ragora]'s [EmailMessageModel], with the fields of [EmailSummary]. *)
Record EmailMessageModel := {
  message_id : string;
  sender : EmailAddress;
  subject : string;
  date_sent : string;
  folder : string;
  body : string
}.

Inductive SearchStrategy := HYBRID | SIMILAR | KEYWORD.

(** One item of [context_results.results]; [similarity_score] is a Python
    [float], that is an IEEE 754 binary64 number. *)
Record ContextResult := {
  content : string;
  similarity_score : float
}.

(** The dict loaded from [email_assistant_config.json].  ["whitelist"] and
    ["blacklist"] are looked up with [config[...]], so the model records
    whether the key is there ([None]: no such key) and whether its value is
    [null] ([Some None]) or a list.  [answer_patterns] maps a sender address
    to a dict of strings with the keys ["answer_pattern"] and
    ["answer_type"]. *)
Record Config := {
  cfg_whitelist : option (option (list string));
  cfg_blacklist : option (option (list string));
  cfg_answer_patterns : gmap string (gmap string string)
}.

(** What a terminal poll of [wait_with_quit] sees: [select] timed out, or a
    character was read. *)
Inductive tick := Idle | Key (ch : ascii).

(** ** External calls *)

Inductive event :=
| EInitializeEmailProfile
| EInitializeKnowledgeBaseManager
| EListCollections
| ELoadConfig (path : string)
| EConnect
| EFetchMessages
| EProcessNewEmails (ids : list string) (collection : string)
| EProcessDocument (path collection : string)
| EDisconnect
| EClose
| ECheckNewEmails (limit : Z) (include_body : bool)
| ECleanEmailBody (m : EmailMessageModel)
| ESearch (query collection : string) (strategy : SearchStrategy) (top_k : Z)
| ECreateDraft (to : EmailAddress) (subj answer : string)
| ESendMessageDirect (to : EmailAddress) (subj answer : string)
| EIsatty
| ESleep (seconds : Z)
| ESetCbreak
| EReadKeys (seconds : Z)
| ERestoreTerminal.

Definition trace := list event.

(** The environment: the answer to each external call, given the trace up to
    and including that call. *)
Record World := {
  w_initialize_email_profile : trace -> exn + unit;
  w_initialize_knowledge_base_manager : trace -> exn + unit;
  w_list_collections : trace -> exn + list string;
  w_load_config : trace -> exn + Config;
  w_connect : trace -> exn + unit;
  w_fetch_messages : trace -> exn + list EmailMessageModel;
  w_process_new_emails : trace -> exn + list string;
  w_process_document : trace -> exn + unit;
  w_disconnect : trace -> exn + unit;
  w_close : trace -> exn + unit;
  w_check_new_emails : trace -> exn + list EmailMessageModel;
  w_clean_email_body : trace -> exn + string;
  w_search : trace -> exn + list ContextResult;
  w_create_draft : trace -> exn + string;
  w_send_message_direct : trace -> exn + bool;
  w_isatty : trace -> bool;
  w_sleep : trace -> exn + unit;
  (** the results of the [select] polls made while [time.time() < end_time] *)
  w_read_keys : trace -> exn + list tick
}.

(** ** The monad of the embedding: a trace is threaded through, a statement
    returns, raises or leaves the model. *)
Definition M (A : Type) : Type := trace -> trace * outcome A.

Definition ret {A} (a : A) : M A := fun tr => (tr, Ret a).
Definition raise {A} (e : exn) : M A := fun tr => (tr, Raise e).
Definition lift {A} (o : outcome A) : M A := fun tr => (tr, o).

Definition bind {A B} (m : M A) (f : A -> M B) : M B :=
  fun tr =>
    let '(tr1, o) := m tr in
    match o with
    | Ret a => f a tr1
    | Raise e => (tr1, Raise e)
    | Unmodelled => (tr1, Unmodelled)
    end.

Notation "'do' x <- m ; k" := (bind m (fun x => k))
  (at level 10, x name, m at level 100, k at level 200).
Notation "'run' m ; k" := (bind m (fun _ => k))
  (at level 10, m at level 100, k at level 200).

(** An external call: the event is recorded, then the world answers. *)
Definition call {A} (e : event) (respond : trace -> exn + A) : M A :=
  fun tr =>
    let tr' := tr ++ [e] in
    (tr', match respond tr' with inl x => Raise x | inr a => Ret a end).

(** [try: body finally: fin].  The [finally] block always runs; when it
    raises, its exception replaces the outcome of the body. *)
Definition try_finally {A} (body : M A) (fin : M unit) : M A :=
  fun tr =>
    let '(tr1, o) := body tr in
    let '(tr2, f) := fin tr1 in
    match f with
    | Ret _ => (tr2, o)
    | Raise e => (tr2, Raise e)
    | Unmodelled => (tr2, Unmodelled)
    end.

(** [for x in l: f(x)] *)
Fixpoint for_each {A} (f : A -> M unit) (l : list A) : M unit :=
  match l with
  | [] => ret tt
  | x :: r => run f x; for_each f r
  end.

(** [x in l] for a Python list of strings: a linear scan with [==]. *)
Fixpoint py_in (x : string) (l : list string) : bool :=
  match l with
  | [] => false
  | y :: r => if String.eqb x y then true else py_in x r
  end.

(** [d[key]] on a dict lookup that may miss. *)
Definition getitem {A} (key : string) (o : option A) : M A :=
  match o with
  | Some a => ret a
  | None => raise (KeyError key)
  end.

(** ** The program *)

Definition config_error : exn :=
  ValueError "Whitelist and blacklist cannot be used together".

Definition default_answer_pattern : string :=
  "Hello {sender.email}, I am the email assistant. I have found the following information for your question: {context_results}".

(** [ch.lower() == 'q'] *)
Definition is_quit_key (ch : ascii) : bool :=
  Ascii.eqb ch "q" || Ascii.eqb ch "Q".

(** The polling loop of [wait_with_quit] over the polls the clock allows:
    the first quit key returns [True], running out of time returns [False]. *)
Fixpoint scan_keys (ts : list tick) : bool :=
  match ts with
  | [] => false
  | Idle :: r => scan_keys r
  | Key ch :: r => if is_quit_key ch then true else scan_keys r
  end.

(** The Python literal for a line feed. *)
Definition newline : string := String (ascii_of_nat 10) EmptyString.

(** [similarity_score > 0.5] *)
Definition confident (r : ContextResult) : bool :=
  PrimFloat.ltb 0.5%float (similarity_score r).

(** The [for] loop of [get_answer_for_email] that builds
    [context_result_confident], started from [acc]. *)
Fixpoint confident_loop (acc : string) (results : list ContextResult) : string :=
  match results with
  | [] => acc
  | r :: rs =>
      confident_loop
        (if confident r then acc +:+ (content r +:+ newline) else acc) rs
  end.

Definition context_result_confident (results : list ContextResult) : string :=
  confident_loop "" results.

(** [answer_pattern.format(sender=..., context_results=...)] *)
Definition render_answer (answer_pattern sender_email context : string)
  : outcome string :=
  PyFormat.format answer_pattern
    {| PyFormat.kw_sender := sender_email;
       PyFormat.kw_context_results := context |}.

(** Lines 484-498 of [get_answer_for_email]: from the search results to the
    answer, [None] when nothing is confident. *)
Definition answer_from_results (answer_pattern : string)
    (m : EmailMessageModel) (results : list ContextResult)
  : outcome (option string) :=
  if (length results =? 0)%nat then Ret None
  else
    let ctx := context_result_confident results in
    if negb (String.eqb ctx "") then
      match render_answer answer_pattern (email (sender m)) ctx with
      | Ret s => Ret (Some s)
      | Raise e => Raise e
      | Unmodelled => Unmodelled
      end
    else Ret None.

(** Lines 476-479: the pattern of the sender's entry, or the default. *)
Definition resolve_answer_pattern (cfg : Config) (m : EmailMessageModel)
  : outcome string :=
  match cfg_answer_patterns cfg !! email (sender m) with
  | Some entry =>
      match entry !! "answer_pattern" with
      | Some p => Ret p
      | None => Raise (KeyError "answer_pattern")
      end
  | None => Ret default_answer_pattern
  end.

(** The test of line 524: the sender has an entry and its ["answer_type"] is
    ["draft"]. *)
Definition wants_draft (cfg : Config) (m : EmailMessageModel) : outcome bool :=
  match cfg_answer_patterns cfg !! email (sender m) with
  | Some entry =>
      match entry !! "answer_type" with
      | Some t => Ret (String.eqb t "draft")
      | None => Raise (KeyError "answer_type")
      end
  | None => Ret false
  end.

Section Program.

Context (W : World).

(** [wait_with_quit]: without a terminal, sleep and return [False]; with
    one, switch it to cbreak mode, poll the keyboard until the time is over
    or a quit key is read, and restore the terminal in the [finally] block.
    The clock is not modelled: [EReadKeys] stands for the whole polling loop
    and the world answers with the polls that fit into the timeout. *)
Definition wait_with_quit (timeout_seconds : Z) : M bool :=
  do tty <- call EIsatty (fun tr => inr (w_isatty W tr));
  if negb tty then
    run call (ESleep timeout_seconds) (w_sleep W);
    ret false
  else
    try_finally
      (run call ESetCbreak (fun _ => inr tt);
       do ts <- call (EReadKeys timeout_seconds) (w_read_keys W);
       ret (scan_keys ts))
      (call ERestoreTerminal (fun _ => inr tt)).

(** The two initialisers and the configuration loader are single external
    steps: each returns or raises. *)
Definition initialize_email_profile : M unit :=
  call EInitializeEmailProfile (w_initialize_email_profile W).

Definition initialize_knowledge_base_manager : M unit :=
  call EInitializeKnowledgeBaseManager (w_initialize_knowledge_base_manager W).

Definition load_email_assistant_config (path : string) : M Config :=
  call (ELoadConfig path) (w_load_config W).

Definition email_database_creation
    (whitelist blacklist : option (list string)) (collection : string)
  : M unit :=
  match whitelist, blacklist with
  | Some _, Some _ => raise config_error
  | _, _ =>
      run call EConnect (w_connect W);
      do emails <- call EFetchMessages (w_fetch_messages W);
      let filtered_email_ids :=
        match whitelist, blacklist with
        | None, None => map message_id emails
        | Some wl, _ =>
            map message_id
              (List.filter (fun msg => py_in (email (sender msg)) wl) emails)
        | None, Some bl =>
            map message_id
              (List.filter (fun msg => negb (py_in (email (sender msg)) bl)) emails)
        end in
      do stored_ids <- call (EProcessNewEmails filtered_email_ids collection)
                            (w_process_new_emails W);
      run call EDisconnect (w_disconnect W);
      ret tt
  end.

Definition send_answer_to_email (m : EmailMessageModel) (answer : string)
  : M bool :=
  call (ESendMessageDirect (sender m) ("RE: " +:+ subject m) answer)
       (w_send_message_direct W).

Definition draft_answer_for_email (m : EmailMessageModel) (answer : string)
  : M string :=
  call (ECreateDraft (sender m) ("RE: " +:+ subject m) answer)
       (w_create_draft W).

Definition check_new_emails (collection : string) (limit : Z)
    (whitelist blacklist : option (list string))
  : M (list EmailMessageModel) :=
  match whitelist, blacklist with
  | Some _, Some _ => raise config_error
  | _, _ =>
      do new_emails <- call (ECheckNewEmails limit true) (w_check_new_emails W);
      let filtered_emails :=
        match whitelist, blacklist with
        | None, None => new_emails
        | Some wl, _ =>
            List.filter (fun msg => py_in (email (sender msg)) wl) new_emails
        | None, Some bl =>
            List.filter (fun msg => negb (py_in (email (sender msg)) bl)) new_emails
        end in
      if negb (length filtered_emails =? 0)%nat then ret filtered_emails
      else ret []
  end.

Definition get_answer_for_email (cfg : Config) (m : EmailMessageModel)
    (collection : string) : M (option string) :=
  do answer_pattern <- lift (resolve_answer_pattern cfg m);
  do email_body <- call (ECleanEmailBody m) (w_clean_email_body W);
  do results <- call (ESearch email_body collection HYBRID 3) (w_search W);
  lift (answer_from_results answer_pattern m results).

(** Lines 523-529 of [email_assistant_workflow]: what is done with the
    answer of one message. *)
Definition dispatch (cfg : Config) (m : EmailMessageModel)
    (answer : option string) : M unit :=
  match answer with
  | Some a =>
      do draft <- lift (wants_draft cfg m);
      if draft then run draft_answer_for_email m a; ret tt
      else run send_answer_to_email m a; ret tt
  | None => ret tt
  end.

(** The body of [for email_message in new_emails]. *)
Definition process_message (cfg : Config) (m : EmailMessageModel) : M unit :=
  do answer <- get_answer_for_email cfg m "Email";
  dispatch cfg m answer.

(** Lines 519-529: fetch and filter the new messages, then answer each. *)
Definition fetch_and_process (cfg : Config) : M unit :=
  do whitelist <- getitem "whitelist" (cfg_whitelist cfg);
  do blacklist <- getitem "blacklist" (cfg_blacklist cfg);
  do new_emails <- check_new_emails "Email" 5 whitelist blacklist;
  for_each (process_message cfg) new_emails.

(** One pass through the body of [while True]; the result tells whether the
    wait saw a quit request (the [break]). *)
Definition poll_iteration (cfg : Config) : M bool :=
  run fetch_and_process cfg;
  wait_with_quit 120.

(** [while True] with at most [fuel] passes.  [None]: the loop is still
    running after [fuel] passes. *)
Fixpoint poll_loop (cfg : Config) (fuel : nat) (tr : trace)
  : trace * option (outcome unit) :=
  match fuel with
  | O => (tr, None)
  | S n =>
      let '(tr1, o) := poll_iteration cfg tr in
      match o with
      | Ret true => (tr1, Some (Ret tt))
      | Ret false => poll_loop cfg n tr1
      | Raise e => (tr1, Some (Raise e))
      | Unmodelled => (tr1, Some Unmodelled)
      end
  end.

(** Lines 509-515: what precedes the loop once both handles exist. *)
Definition bootstrap : M Config :=
  do collections <- call EListCollections (w_list_collections W);
  do cfg <- load_email_assistant_config "email_assistant_config.json";
  if negb (py_in "Email" collections) then
    do whitelist <- getitem "whitelist" (cfg_whitelist cfg);
    run email_database_creation whitelist None "Email";
    run call (EProcessDocument "latex_documents/vahid.tex" "Email")
             (w_process_document W);
    run call (EProcessDocument "latex_documents/mohamed.tex" "Email")
             (w_process_document W);
    ret cfg
  else ret cfg.

(** The [finally] block of [email_assistant_workflow].  A local variable that
    was never assigned raises [UnboundLocalError] when it is read. *)
Definition cleanup (email_profile_bound kbm_bound : bool) : M unit :=
  run (if email_profile_bound then call EDisconnect (w_disconnect W)
       else raise (UnboundLocalError "email_profile"));
  if kbm_bound then call EClose (w_close W)
  else raise (UnboundLocalError "kbm").

(** The outcome of the [try] block followed by the [finally] block. *)
Definition finish (email_profile_bound kbm_bound : bool)
    (o : outcome unit) : M unit :=
  try_finally (lift o) (cleanup email_profile_bound kbm_bound).

(** [email_assistant_workflow], with at most [fuel] passes of the loop.  The
    [except] clause logs and raises again, so it does not change the
    outcome; the [finally] block sees which of the two handles were
    assigned. *)
Definition email_assistant_workflow (fuel : nat) (tr : trace)
  : trace * option (outcome unit) :=
  let '(tr1, o1) := initialize_email_profile tr in
  match o1 with
  | Ret _ =>
      let '(tr2, o2) := initialize_knowledge_base_manager tr1 in
      match o2 with
      | Ret _ =>
          let '(tr3, o3) := bootstrap tr2 in
          match o3 with
          | Ret cfg =>
              let '(tr4, o4) := poll_loop cfg fuel tr3 in
              match o4 with
              | Some o => let '(tr5, r) := finish true true o tr4 in (tr5, Some r)
              | None => (tr4, None)
              end
          | Raise e =>
              let '(tr5, r) := finish true true (Raise e) tr3 in (tr5, Some r)
          | Unmodelled =>
              let '(tr5, r) := finish true true Unmodelled tr3 in (tr5, Some r)
          end
      | Raise e =>
          let '(tr5, r) := finish true false (Raise e) tr2 in (tr5, Some r)
      | Unmodelled =>
          let '(tr5, r) := finish true false Unmodelled tr2 in (tr5, Some r)
      end
  | Raise e =>
      let '(tr5, r) := finish false false (Raise e) tr1 in (tr5, Some r)
  | Unmodelled =>
      let '(tr5, r) := finish false false Unmodelled tr1 in (tr5, Some r)
  end.

End Program.

(** ** Definitions used to state the properties *)

(** The contents of a list of results, each followed by a line feed. *)
Fixpoint joined (l : list ContextResult) : string :=
  match l with
  | [] => ""
  | r :: rs => content r +:+ newline +:+ joined rs
  end.


(** A template text without braces. *)
Fixpoint brace_free (s : string) : bool :=
  match s with
  | EmptyString => true
  | String c r =>
      negb (Ascii.eqb c "{") && negb (Ascii.eqb c "}") && brace_free r
  end.

(** ** Concrete data for the examples *)

Definition addr (a : string) : EmailAddress :=
  {| email := a; display_name := None |}.

Definition mk_message (from subj text : string) : EmailMessageModel :=
  {| message_id := "m1"; sender := addr from; subject := subj;
     date_sent := "2025-01-01"; folder := "INBOX"; body := text |}.

Definition mk_entry (pattern type : string) : gmap string string :=
  {[ "answer_pattern" := pattern; "answer_type" := type ]}.

Definition mk_config (wl bl : option (option (list string)))
    (patterns : gmap string (gmap string string)) : Config :=
  {| cfg_whitelist := wl; cfg_blacklist := bl; cfg_answer_patterns := patterns |}.

(** A world in which every call returns: the collection exists, the
    configuration is [cfg], every poll finds [inbox], the body normaliser
    returns the body of the message it is given, every search returns
    [results], the terminal delivers [keys] during every wait, and
    [disconnect] answers [bye]. *)
Definition mk_world (cfg : Config) (inbox : list EmailMessageModel)
    (results : list ContextResult) (keys : list tick) (bye : exn + unit)
  : World :=
  {| w_initialize_email_profile := fun _ => inr tt;
     w_initialize_knowledge_base_manager := fun _ => inr tt;
     w_list_collections := fun _ => inr ["Email"];
     w_load_config := fun _ => inr cfg;
     w_connect := fun _ => inr tt;
     w_fetch_messages := fun _ => inr inbox;
     w_process_new_emails := fun _ => inr [];
     w_process_document := fun _ => inr tt;
     w_disconnect := fun _ => bye;
     w_close := fun _ => inr tt;
     w_check_new_emails := fun _ => inr inbox;
     w_clean_email_body := fun tr =>
       match last tr with
       | Some (ECleanEmailBody m) => inr (body m)
       | _ => inl (CapabilityError "clean_email_body")
       end;
     w_search := fun _ => inr results;
     w_create_draft := fun _ => inr "draft-1";
     w_send_message_direct := fun _ => inr true;
     w_isatty := fun _ => true;
     w_sleep := fun _ => inr tt;
     w_read_keys := fun _ => inr keys |}.

Definition msg_a : EmailMessageModel :=
  mk_message "a@x.com" "Meeting?" "When is the meeting?".

Definition msg_b : EmailMessageModel :=
  mk_message "b@x.com" "Lunch?" "Where do we eat?".

#[warnings="-inexact-float"]
Definition result_3pm : ContextResult :=
  {| content := "Meeting is at 3pm"; similarity_score := 0.8%float |}.

Definition cfg_send : Config :=
  mk_config (Some (Some ["a@x.com"])) (Some None)
    {[ "a@x.com" := mk_entry "Hi {sender}, info: {context_results}" "send" ]}.

Definition cfg_draft : Config :=
  mk_config (Some (Some ["a@x.com"])) (Some None)
    {[ "a@x.com" := mk_entry "Hi {sender}, info: {context_results}" "draft" ]}.

Definition world_send : World :=
  mk_world cfg_send [msg_a] [result_3pm] [Idle; Key "q"] (inr tt).

(** The calls that create a draft or send a message. *)
Definition is_reply_call (e : event) : bool :=
  match e with
  | ECreateDraft _ _ _ | ESendMessageDirect _ _ _ => true
  | _ => false
  end.

(** The call that fetches new messages. *)
Definition is_fetch_call (e : event) : bool :=
  match e with
  | ECheckNewEmails _ _ => true
  | _ => false
  end.

(** [p] is a prefix of [s]. *)
Fixpoint is_prefix (p s : string) : bool :=
  match p, s with
  | EmptyString, _ => true
  | String a p', String b s' => Ascii.eqb a b && is_prefix p' s'
  | String _ _, EmptyString => false
  end.

(** Python's [sub in s] on strings. *)
Fixpoint str_contains (s sub : string) : bool :=
  is_prefix sub s ||
  match s with
  | EmptyString => false
  | String _ r => str_contains r sub
  end.

Definition world_no_context : World :=
  mk_world cfg_send [msg_a] [] [Key "q"] (inr tt).

Definition cfg_both_empty : Config :=
  mk_config (Some (Some [])) (Some (Some [])) ∅.

Definition world_both_empty : World :=
  mk_world cfg_both_empty [msg_a] [result_3pm] [Key "q"] (inr tt).

Definition world_bad_disconnect : World :=
  mk_world cfg_send [msg_a] [result_3pm] [Key "q"]
    (inl (CapabilityError "disconnect failed")).

Definition is_close_call (e : event) : bool :=
  match e with
  | EClose => true
  | _ => false
  end.

Definition is_disconnect_call (e : event) : bool :=
  match e with
  | EDisconnect => true
  | _ => false
  end.

(** How many events of a trace [f] recognises. *)
Definition count_calls (f : event -> bool) (tr : trace) : nat :=
  length (List.filter f tr).

(** [m] only extends the trace, and only by events that satisfy [P]. *)
Definition emits {A} (P : event -> Prop) (m : M A) : Prop :=
  forall tr, exists evs, fst (m tr) = tr ++ evs /\ Forall P evs.

(** The terminal delivers a quit key on the second wait only. *)
Definition world_second_wait : World :=
  {| w_initialize_email_profile := fun _ => inr tt;
     w_initialize_knowledge_base_manager := fun _ => inr tt;
     w_list_collections := fun _ => inr ["Email"];
     w_load_config := fun _ => inr cfg_send;
     w_connect := fun _ => inr tt;
     w_fetch_messages := fun _ => inr [];
     w_process_new_emails := fun _ => inr [];
     w_process_document := fun _ => inr tt;
     w_disconnect := fun _ => inr tt;
     w_close := fun _ => inr tt;
     w_check_new_emails := fun _ => inr [];
     w_clean_email_body := fun _ => inr "";
     w_search := fun _ => inr [];
     w_create_draft := fun _ => inr "draft-1";
     w_send_message_direct := fun _ => inr true;
     w_isatty := fun _ => true;
     w_sleep := fun _ => inr tt;
     w_read_keys := fun tr =>
       if (count_calls is_fetch_call tr =? 2)%nat
       then inr [Key "x"; Idle; Key "Q"]
       else inr [Idle; Key "x"] |}.

(** ** Further worlds for the examples *)

(** [W] with another answer of the terminal test. *)
Definition with_isatty (b : bool) (W : World) : World :=
  Build_World (w_initialize_email_profile W)
    (w_initialize_knowledge_base_manager W) (w_list_collections W)
    (w_load_config W) (w_connect W) (w_fetch_messages W)
    (w_process_new_emails W) (w_process_document W) (w_disconnect W)
    (w_close W) (w_check_new_emails W) (w_clean_email_body W) (w_search W)
    (w_create_draft W) (w_send_message_direct W) (fun _ => b) (w_sleep W)
    (w_read_keys W).

(** [W] with other answers of the two initialisers. *)
Definition with_init (profile kbm : exn + unit) (W : World) : World :=
  Build_World (fun _ => profile) (fun _ => kbm) (w_list_collections W)
    (w_load_config W) (w_connect W) (w_fetch_messages W)
    (w_process_new_emails W) (w_process_document W) (w_disconnect W)
    (w_close W) (w_check_new_emails W) (w_clean_email_body W) (w_search W)
    (w_create_draft W) (w_send_message_direct W) (w_isatty W) (w_sleep W)
    (w_read_keys W).

(** [W] with other collections, and other answers of [fetch_messages] and
    of the indexing call. *)
Definition with_mailbox (collections : list string)
    (fetched : exn + list EmailMessageModel) (stored : exn + list string)
    (W : World) : World :=
  Build_World (w_initialize_email_profile W)
    (w_initialize_knowledge_base_manager W) (fun _ => inr collections)
    (w_load_config W) (w_connect W) (fun _ => fetched)
    (fun _ => stored) (w_process_document W) (w_disconnect W)
    (w_close W) (w_check_new_emails W) (w_clean_email_body W) (w_search W)
    (w_create_draft W) (w_send_message_direct W) (w_isatty W) (w_sleep W)
    (w_read_keys W).

(** [W] with other answers of the draft, send and keyboard calls. *)
Definition with_replies (draft : exn + string) (sent : exn + bool)
    (keys : exn + list tick) (W : World) : World :=
  Build_World (w_initialize_email_profile W)
    (w_initialize_knowledge_base_manager W) (w_list_collections W)
    (w_load_config W) (w_connect W) (w_fetch_messages W)
    (w_process_new_emails W) (w_process_document W) (w_disconnect W)
    (w_close W) (w_check_new_emails W) (w_clean_email_body W) (w_search W)
    (fun _ => draft) (fun _ => sent) (w_isatty W) (w_sleep W)
    (fun _ => keys).

Definition is_read_keys_call (e : event) : bool :=
  match e with
  | EReadKeys _ => true
  | _ => false
  end.

(** The sender address an event is about, if any. *)
Definition addressee (e : event) : option string :=
  match e with
  | ECleanEmailBody m => Some (email (sender m))
  | ECreateDraft to _ _ | ESendMessageDirect to _ _ => Some (email to)
  | _ => None
  end.

Definition cfg_no_lists : Config :=
  mk_config None None ∅.

Definition cfg_no_pattern : Config :=
  mk_config (Some None) (Some None)
    {[ "a@x.com" := {[ "answer_type" := "send" ]} ]}.

Definition cfg_open : Config :=
  mk_config (Some None) (Some None) ∅.

Definition world_open : World :=
  mk_world cfg_open [msg_b; msg_a] [result_3pm] [Key "q"] (inr tt).

Definition cfg_blacklist_only : Config :=
  mk_config (Some None) (Some (Some ["b@x.com"])) ∅.

(** A knowledge base without the collection ["Email"], a mailbox with two
    messages, and a configuration with a blacklist only. *)
Definition world_fresh : World :=
  with_mailbox ["Documents"] (inr [msg_a; msg_b]) (inr ["c1"; "c2"])
    (mk_world cfg_blacklist_only [] [] [Key "q"] (inr tt)).

Definition world_fetch_fails : World :=
  with_mailbox ["Documents"] (inl (CapabilityError "imap")) (inr [])
    world_send.

Definition world_index_fails : World :=
  with_mailbox ["Documents"] (inr [msg_a; msg_b])
    (inl (CapabilityError "weaviate")) world_send.

(** The senders the two lists let through. *)
Definition in_scope (wl bl : option (list string)) (a : string) : Prop :=
  match wl, bl with
  | Some l, _ => a ∈ l
  | None, Some l => a ∉ l
  | None, None => True
  end.

Definition world_two_senders : World :=
  mk_world cfg_send [msg_a; msg_b; msg_a] [result_3pm] [Key "q"] (inr tt).

(** The answers of the world depend on the last call only, not on what
    happened before it. *)
Definition history_free (W : World) : Prop :=
  forall t t' : trace, last t = last t' ->
    w_check_new_emails W t = w_check_new_emails W t' /\
    w_clean_email_body W t = w_clean_email_body W t' /\
    w_search W t = w_search W t' /\
    w_create_draft W t = w_create_draft W t' /\
    w_send_message_direct W t = w_send_message_direct W t' /\
    w_isatty W t = w_isatty W t' /\
    w_sleep W t = w_sleep W t' /\
    w_read_keys W t = w_read_keys W t'.

(** [m] makes the same calls with the same outcome wherever it starts. *)
Definition replays {A} (m : M A) : Prop :=
  exists evs o, forall t : trace, m t = (t ++ evs, o).

(** The mailbox keeps reporting the same unread message and nobody asks to
    quit. *)
Definition world_unchanged : World :=
  mk_world cfg_send [msg_a] [result_3pm] [Idle; Key "x"] (inr tt).

(** A field name without any character the scanner treats specially. *)
Fixpoint plain_name (s : string) : bool :=
  match s with
  | EmptyString => true
  | String c r =>
      negb (Ascii.eqb c "{") && negb (Ascii.eqb c "}") &&
      negb (Ascii.eqb c "[") && negb (Ascii.eqb c ":") &&
      negb (Ascii.eqb c "!") && negb (Ascii.eqb c ".") && plain_name r
  end.

(** Only characters of the ASCII range. *)
Fixpoint ascii_only (s : string) : bool :=
  match s with
  | EmptyString => true
  | String c r => (nat_of_ascii c <? 128)%nat && ascii_only r
  end.

(** ** Credentials and the knowledge base address

    [get_user_credentials], [get_user_credentials_from_file] and
    [get_weaviate_url_from_file].  What they write and ask is recorded in a
    list of [io] events of its own.  [environ] is the process environment
    once [load_dotenv] has merged the [.env] file into it; [typed] is what
    [input] or [getpass] returns, given everything written and asked so
    far. *)
Module Credentials.

Inductive io :=
| IoPrint (text : string)
| IoLoadDotenv
| IoGetenv (name : string)
| IoInput (prompt : string)
| IoGetpass (prompt : string).

Record Console := {
  environ : gmap string string;
  typed : list io -> exn + string
}.

(** [bool(x)] for [x] a string or [None]. *)
Definition truthy (o : option string) : bool :=
  match o with
  | Some (String _ _) => true
  | _ => false
  end.

(** The ASCII characters for which [str.isspace] holds. *)
Definition is_space (c : ascii) : bool :=
  let n := nat_of_ascii c in
  ((9 <=? n) && (n <=? 13) || (28 <=? n) && (n <=? 32))%nat.

Fixpoint lstrip (s : string) : string :=
  match s with
  | EmptyString => EmptyString
  | String c r => if is_space c then lstrip r else s
  end.

Fixpoint rstrip (s : string) : string :=
  match s with
  | EmptyString => EmptyString
  | String c r =>
      match rstrip r with
      | EmptyString => if is_space c then EmptyString else String c EmptyString
      | r' => String c r'
      end
  end.

(** [s.strip()], for a string of ASCII characters. *)
Definition strip (s : string) : string := rstrip (lstrip s).

(** [s.endswith(suffix)] *)
Fixpoint endswith (s suffix : string) : bool :=
  String.eqb s suffix ||
  match s with
  | EmptyString => false
  | String _ r => endswith r suffix
  end.

Definition banner : string := "=== Email Credentials Setup ===".

Definition gmail_warning : string :=
  "Warning: This example is configured for Gmail. Other providers may need different settings.".

Definition get_user_credentials_from_file (c : Console) (out : list io)
  : list io * (option string * option string * option string) :=
  (out ++ [IoLoadDotenv; IoGetenv "EMAIL"; IoGetenv "PASSWORD";
           IoGetenv "RECIPIENT"],
   (environ c !! "EMAIL", environ c !! "PASSWORD", environ c !! "RECIPIENT")).

Definition get_weaviate_url_from_file (c : Console) (out : list io)
  : list io * option string :=
  (out ++ [IoLoadDotenv; IoGetenv "WEAVIATE_URL"], environ c !! "WEAVIATE_URL").

(** [get_weaviate_url_from_file() or "http://localhost:8080"], the address
    [initialize_knowledge_base_manager] connects to. *)
Definition weaviate_url (c : Console) (out : list io) : list io * string :=
  let '(out1, url) := get_weaviate_url_from_file c out in
  (out1, if truthy url then default "" url else "http://localhost:8080").

(** [input(prompt)] and [getpass.getpass(prompt)] *)
Definition ask (c : Console) (e : io) (out : list io)
  : list io * outcome string :=
  let out1 := out ++ [e] in
  (out1, match typed c out1 with inl x => Raise x | inr s => Ret s end).

Definition get_user_credentials (c : Console) (out : list io)
  : list io * outcome (option string * option string * option string) :=
  let out0 := out ++ [IoPrint banner] in
  let '(out1, (email, password, recipient)) :=
    get_user_credentials_from_file c out0 in
  if truthy email && truthy password then
    (out1, Ret (email, password, recipient))
  else
    match ask c (IoInput "Enter your Gmail address: ") out1 with
    | (out2, Ret typed_email) =>
        let email := strip typed_email in
        let out3 :=
          if negb (endswith email "@gmail.com")
          then out2 ++ [IoPrint gmail_warning] else out2 in
        match ask c (IoGetpass "Enter your Gmail app password: ") out3 with
        | (out4, Ret password) =>
            let out5 := out4 ++ [IoPrint ("password: " +:+ " " +:+ password)] in
            match ask c (IoInput "Enter recipient email address: ") out5 with
            | (out6, Ret typed_recipient) =>
                (out6, Ret (Some email, Some password,
                            Some (strip typed_recipient)))
            | (out6, Raise x) => (out6, Raise x)
            | (out6, Unmodelled) => (out6, Unmodelled)
            end
        | (out4, Raise x) => (out4, Raise x)
        | (out4, Unmodelled) => (out4, Unmodelled)
        end
    | (out2, Raise x) => (out2, Raise x)
    | (out2, Unmodelled) => (out2, Unmodelled)
    end.

Definition is_prompt (e : io) : bool :=
  match e with
  | IoInput _ | IoGetpass _ => true
  | _ => false
  end.

(** A console that answers each prompt with a fixed text. *)
Definition mk_console (env : gmap string string)
    (address password recipient : string) : Console :=
  {| environ := env;
     typed := fun out =>
       match last out with
       | Some (IoInput "Enter your Gmail address: ") => inr address
       | Some (IoGetpass _) => inr password
       | Some (IoInput _) => inr recipient
       | _ => inl (CapabilityError "nothing was asked")
       end |}.

End Credentials.

(** ** [EmailSummary.from_dict]

    The dict maps a key to a string or to [None].  A [None] body is
    replaced by [field(default_factory=str)], which is a [dataclasses.Field]
    object and not a string. *)
Module Summary.

Inductive body_value :=
| BodyText (s : string)
| BodyFieldObject.

Record EmailSummary := {
  message_id : option string;
  subject : option string;
  sender : option string;
  date_sent : option string;
  folder : option string;
  body : body_value
}.

(** [data[key]] *)
Definition item (data : gmap string (option string)) (key : string)
  : outcome (option string) :=
  match data !! key with
  | Some v => Ret v
  | None => Raise (KeyError key)
  end.

(** The keys in the order [from_dict] reads them. *)
Definition keys : list string :=
  ["email_id"; "subject"; "sender"; "date_sent"; "folder"; "body"].

Definition from_dict (data : gmap string (option string))
  : outcome EmailSummary :=
  match item data "email_id" with
  | Ret i =>
    match item data "subject" with
    | Ret s =>
      match item data "sender" with
      | Ret f =>
        match item data "date_sent" with
        | Ret d =>
          match item data "folder" with
          | Ret o =>
            match item data "body" with
            | Ret b =>
                Ret {| message_id := i; subject := s; sender := f;
                       date_sent := d; folder := o;
                       body := match b with
                               | Some text => BodyText text
                               | None => BodyFieldObject
                               end |}
            | Raise e => Raise e
            | Unmodelled => Unmodelled
            end
          | Raise e => Raise e
          | Unmodelled => Unmodelled
          end
        | Raise e => Raise e
        | Unmodelled => Unmodelled
        end
      | Raise e => Raise e
      | Unmodelled => Unmodelled
      end
    | Raise e => Raise e
    | Unmodelled => Unmodelled
    end
  | Raise e => Raise e
  | Unmodelled => Unmodelled
  end.

End Summary.

(** The calls a pass of the poll loop can make. *)
Definition is_pass_event (e : event) : bool :=
  match e with
  | ECheckNewEmails _ _ | ECleanEmailBody _ | ESearch _ _ _ _
  | ECreateDraft _ _ _ | ESendMessageDirect _ _ _
  | EIsatty | ESleep _ | ESetCbreak | EReadKeys _ | ERestoreTerminal => true
  | _ => false
  end.

Definition world_no_config : World :=
  Build_World (fun _ => inr tt) (fun _ => inr tt) (fun _ => inr ["Email"])
    (fun _ => inl (ValueError "Expecting value: line 1 column 1 (char 0)"))
    (fun _ => inr tt) (fun _ => inr []) (fun _ => inr []) (fun _ => inr tt)
    (fun _ => inr tt) (fun _ => inr tt) (fun _ => inr []) (fun _ => inr "")
    (fun _ => inr []) (fun _ => inr "d") (fun _ => inr true) (fun _ => true)
    (fun _ => inr tt) (fun _ => inr []).

(** The calls the processing of one message can make, from start to end:
    nothing, the normalisation of its body, then the search, then one draft
    or one send to its sender. *)
Inductive message_calls (m : EmailMessageModel) : trace -> Prop :=
| calls_none : message_calls m []
| calls_clean : message_calls m [ECleanEmailBody m]
| calls_search (q : string) :
    message_calls m [ECleanEmailBody m; ESearch q "Email" HYBRID 3]
| calls_draft (q a : string) :
    message_calls m
      [ECleanEmailBody m; ESearch q "Email" HYBRID 3;
       ECreateDraft (sender m) ("RE: " +:+ subject m) a]
| calls_send (q a : string) :
    message_calls m
      [ECleanEmailBody m; ESearch q "Email" HYBRID 3;
       ESendMessageDirect (sender m) ("RE: " +:+ subject m) a].
(** * Properties *)

(** ** Strings *)

Lemma append_cons (c : ascii) (s t : string) :
  String c s +:+ t = String c (s +:+ t).
Proof. reflexivity. Qed.

Lemma append_empty_l (t : string) : "" +:+ t = t.
Proof. reflexivity. Qed.

Lemma append_empty_r (s : string) : s +:+ "" = s.
Proof.
  induction s as [|c s IH]; [reflexivity|].
  by rewrite append_cons, IH.
Qed.

Lemma append_assoc3 (a b c : string) : (a +:+ b) +:+ c = a +:+ (b +:+ c).
Proof.
  induction a as [|x a IH]; [reflexivity|].
  by rewrite !append_cons, IH.
Qed.

Lemma append_nonempty_r (a : string) (c : ascii) (b : string) :
  a +:+ String c b <> "".
Proof. destruct a; discriminate. Qed.

Lemma py_in_elem_of (x : string) (l : list string) : py_in x l = true <-> x ∈ l.
Proof.
  induction l as [|y l IH]; simpl.
  - split; [discriminate | intros H; inversion H].
  - destruct (String.eqb_spec x y) as [->|Hne].
    + split; [intros _; left | reflexivity].
    + rewrite IH. split; [by right|].
      intros H. inversion H; subst; [contradiction | assumption].
Qed.

(** ** The confidence gate *)

Lemma confident_loop_joined (acc : string) (results : list ContextResult) :
  confident_loop acc results = acc +:+ joined (List.filter confident results).
Proof.
  revert acc. induction results as [|r rs IH]; intros acc; simpl.
  - by rewrite append_empty_r.
  - destruct (confident r); simpl.
    + rewrite IH. by rewrite !append_assoc3.
    + apply IH.
Qed.

Lemma context_result_confident_joined (results : list ContextResult) :
  context_result_confident results = joined (List.filter confident results).
Proof. unfold context_result_confident. by rewrite confident_loop_joined. Qed.

Lemma joined_empty (l : list ContextResult) : joined l = "" <-> l = [].
Proof.
  destruct l as [|r l]; simpl; [done|].
  split; [|discriminate].
  unfold newline. rewrite append_cons, append_empty_l. intros H.
  by apply append_nonempty_r in H.
Qed.

Lemma elem_of_filter_confident (r : ContextResult) (results : list ContextResult) :
  r ∈ List.filter confident results <->
  r ∈ results /\ PrimFloat.ltb 0.5%float (similarity_score r) = true.
Proof.
  rewrite !list_elem_of_In, filter_In. reflexivity.
Qed.

Lemma filter_sublist {A} (f : A -> bool) (l : list A) :
  sublist (List.filter f l) l.
Proof.
  induction l as [|x l IH]; simpl; [constructor|].
  destruct (f x); by constructor.
Qed.

Lemma answer_from_results_joined (p : string) (m : EmailMessageModel)
    (results : list ContextResult) :
  answer_from_results p m results =
  match List.filter confident results with
  | [] => Ret None
  | _ :: _ =>
      match render_answer p (email (sender m))
              (joined (List.filter confident results)) with
      | Ret s => Ret (Some s)
      | Raise e => Raise e
      | Unmodelled => Unmodelled
      end
  end.
Proof.
  unfold answer_from_results.
  rewrite context_result_confident_joined.
  destruct results as [|r rs]; [reflexivity|].
  change (length (r :: rs) =? 0)%nat with false. cbv iota.
  destruct (List.filter confident (r :: rs)) as [|k ks] eqn:Hk.
  - reflexivity.
  - destruct (String.eqb_spec (joined (k :: ks)) "") as [He|Hne]; [|reflexivity].
    apply joined_empty in He. discriminate.
Qed.

(** What [get_answer_for_email] does when the pattern is resolved and both
    capability calls return. *)
Lemma get_answer_for_email_run (W : World) (cfg : Config)
    (m : EmailMessageModel) (coll : string) (tr : trace)
    (p q : string) (results : list ContextResult) :
  resolve_answer_pattern cfg m = Ret p ->
  w_clean_email_body W (tr ++ [ECleanEmailBody m]) = inr q ->
  w_search W ((tr ++ [ECleanEmailBody m]) ++ [ESearch q coll HYBRID 3])
    = inr results ->
  get_answer_for_email W cfg m coll tr =
  ((tr ++ [ECleanEmailBody m]) ++ [ESearch q coll HYBRID 3],
   answer_from_results p m results).
Proof.
  intros Hp Hq Hr.
  unfold get_answer_for_email, bind, lift, call.
  by rewrite Hp, Hq, Hr.
Qed.

(** C1. The context is made of the contents of exactly the results whose
    score is strictly above 0.5, in the order of the search, each followed by
    a line feed; with no result at all, or none above the threshold,
    [get_answer_for_email] returns [None]; otherwise it returns the pattern
    rendered with that context. *)
Theorem C1_confidence_gate (W : World) (cfg : Config)
    (m : EmailMessageModel) (coll : string) (tr : trace)
    (p q : string) (results : list ContextResult) :
  resolve_answer_pattern cfg m = Ret p ->
  w_clean_email_body W (tr ++ [ECleanEmailBody m]) = inr q ->
  w_search W ((tr ++ [ECleanEmailBody m]) ++ [ESearch q coll HYBRID 3])
    = inr results ->
  let kept := List.filter confident results in
  (forall r, r ∈ kept <->
     r ∈ results /\ PrimFloat.ltb 0.5%float (similarity_score r) = true) /\
  sublist kept results /\
  context_result_confident results = joined kept /\
  (results = [] ->
     snd (get_answer_for_email W cfg m coll tr) = Ret None) /\
  (kept = [] ->
     snd (get_answer_for_email W cfg m coll tr) = Ret None) /\
  (kept <> [] ->
     snd (get_answer_for_email W cfg m coll tr) =
     match render_answer p (email (sender m)) (joined kept) with
     | Ret s => Ret (Some s)
     | Raise e => Raise e
     | Unmodelled => Unmodelled
     end).
Proof.
  intros Hp Hq Hr kept.
  rewrite (get_answer_for_email_run W cfg m coll tr p q results Hp Hq Hr).
  cbn [snd]. rewrite answer_from_results_joined. fold kept.
  split; [intros r; apply elem_of_filter_confident|].
  split; [apply filter_sublist|].
  split; [apply context_result_confident_joined|].
  split; [intros ->; reflexivity|].
  split; [intros ->; reflexivity|].
  intros Hne. destruct kept; [contradiction | reflexivity].
Qed.

Example scenario_send :
  email_assistant_workflow world_send 3 [] =
  ([EInitializeEmailProfile; EInitializeKnowledgeBaseManager; EListCollections;
    ELoadConfig "email_assistant_config.json"; ECheckNewEmails 5 true;
    ECleanEmailBody msg_a;
    ESearch "When is the meeting?" "Email" HYBRID 3;
    ESendMessageDirect (addr "a@x.com") "RE: Meeting?"
      ("Hi a@x.com, info: Meeting is at 3pm" +:+ newline);
    EIsatty; ESetCbreak; EReadKeys 120; ERestoreTerminal;
    EDisconnect; EClose],
   Some (Ret tt)).
Proof. vm_compute. reflexivity. Qed.

(** The gate is strict: a score of exactly 0.5 is dropped, and with it the
    only result, so nothing is answered. *)
Example gate_excludes_half :
  confident {| content := "x"; similarity_score := 0.5%float |} = false /\
  answer_from_results "{context_results}" msg_a
    [{| content := "x"; similarity_score := 0.5%float |}] = Ret None.
Proof. split; reflexivity. Qed.

(** A score just above the threshold passes. *)
#[warnings="-inexact-float"]
Example gate_includes_above_half :
  confident {| content := "x"; similarity_score := 0.5001%float |} = true /\
  answer_from_results "{context_results}" msg_a
    [{| content := "x"; similarity_score := 0.5001%float |}]
  = Ret (Some ("x" +:+ newline)).
Proof. split; reflexivity. Qed.

(** Not-a-number is not above the threshold. *)
Example gate_excludes_nan :
  confident {| content := "x"; similarity_score := PrimFloat.nan |} = false.
Proof. reflexivity. Qed.

Lemma C1_confidence_gate_witness :
  let kept := List.filter confident [result_3pm] in
  (forall r, r ∈ kept <->
     r ∈ [result_3pm] /\ PrimFloat.ltb 0.5%float (similarity_score r) = true) /\
  sublist kept [result_3pm] /\
  context_result_confident [result_3pm] = joined kept /\
  ([result_3pm] = [] ->
     snd (get_answer_for_email world_send cfg_send msg_a "Email" []) = Ret None) /\
  (kept = [] ->
     snd (get_answer_for_email world_send cfg_send msg_a "Email" []) = Ret None) /\
  (kept <> [] ->
     snd (get_answer_for_email world_send cfg_send msg_a "Email" []) =
     match render_answer "Hi {sender}, info: {context_results}"
             (email (sender msg_a)) (joined kept) with
     | Ret s => Ret (Some s)
     | Raise e => Raise e
     | Unmodelled => Unmodelled
     end).
Proof.
  apply (C1_confidence_gate world_send cfg_send msg_a "Email" []
           "Hi {sender}, info: {context_results}" "When is the meeting?"
           [result_3pm]); vm_compute; reflexivity.
Defined.

(** ** Answer patterns *)

Lemma format_from_literal (kw : PyFormat.kwargs) (lit rest : string) :
  brace_free lit = true ->
  PyFormat.format_from kw None (lit +:+ rest) =
  PyFormat.app_out lit (PyFormat.format_from kw None rest).
Proof.
  induction lit as [|c lit IH]; intros Hbf.
  - rewrite append_empty_l.
    by destruct (PyFormat.format_from kw None rest).
  - simpl in Hbf. apply andb_prop in Hbf as [Hc Hbf].
    apply andb_prop in Hc as [Ho Hcl].
    apply negb_true_iff in Ho, Hcl.
    rewrite append_cons. cbn [PyFormat.format_from].
    rewrite Ho, Hcl, (IH Hbf).
    by destruct (PyFormat.format_from kw None rest).
Qed.

Lemma format_from_sender (kw : PyFormat.kwargs) (rest : string) :
  PyFormat.format_from kw None ("{sender}" +:+ rest) =
  PyFormat.app_out (PyFormat.kw_sender kw) (PyFormat.format_from kw None rest).
Proof. reflexivity. Qed.

Lemma format_from_context_results (kw : PyFormat.kwargs) (rest : string) :
  PyFormat.format_from kw None ("{context_results}" +:+ rest) =
  PyFormat.app_out (PyFormat.kw_context_results kw)
    (PyFormat.format_from kw None rest).
Proof. reflexivity. Qed.

(** A pattern made of plain text around the two placeholders [{sender}] and
    [{context_results}] is rendered by substitution. *)
Lemma render_answer_substitutes (l1 l2 l3 s ctx : string) :
  brace_free l1 = true -> brace_free l2 = true -> brace_free l3 = true ->
  render_answer (l1 +:+ "{sender}" +:+ l2 +:+ "{context_results}" +:+ l3) s ctx
  = Ret (l1 +:+ s +:+ l2 +:+ ctx +:+ l3).
Proof.
  intros H1 H2 H3. unfold render_answer, PyFormat.format.
  rewrite (format_from_literal _ l1 _ H1), format_from_sender.
  rewrite (format_from_literal _ l2 _ H2), format_from_context_results.
  rewrite <- (append_empty_r l3) at 1.
  rewrite (format_from_literal _ l3 _ H3).
  cbn [PyFormat.format_from PyFormat.app_out PyFormat.kw_sender
       PyFormat.kw_context_results].
  by rewrite append_empty_r.
Qed.

(** C2, as the code has it.  A sender with an entry gets the entry's
    ["answer_pattern"], any other sender the default pattern of the source;
    rendering passes the sender address as [sender] and the context as
    [context_results], so that plain text around [{sender}] and
    [{context_results}] is rendered by substitution, for instance
    ["Hi {sender}: {context_results}"] as ["Hi a@x.com: C"]. *)
Theorem C2_pattern_resolution (cfg : Config) (m : EmailMessageModel) :
  (forall entry p,
     cfg_answer_patterns cfg !! email (sender m) = Some entry ->
     entry !! "answer_pattern" = Some p ->
     resolve_answer_pattern cfg m = Ret p) /\
  (cfg_answer_patterns cfg !! email (sender m) = None ->
     resolve_answer_pattern cfg m = Ret
       "Hello {sender.email}, I am the email assistant. I have found the following information for your question: {context_results}") /\
  (forall l1 l2 l3 ctx,
     brace_free l1 = true -> brace_free l2 = true -> brace_free l3 = true ->
     render_answer (l1 +:+ "{sender}" +:+ l2 +:+ "{context_results}" +:+ l3)
       (email (sender m)) ctx
     = Ret (l1 +:+ email (sender m) +:+ l2 +:+ ctx +:+ l3)) /\
  render_answer "Hi {sender}: {context_results}" "a@x.com" "C"
  = Ret "Hi a@x.com: C".
Proof.
  split; [|split; [|split]].
  - intros entry p He Hp. unfold resolve_answer_pattern. by rewrite He, Hp.
  - intros Hn. unfold resolve_answer_pattern. by rewrite Hn.
  - intros l1 l2 l3 ctx. apply render_answer_substitutes.
  - reflexivity.
Qed.

Lemma C2_pattern_resolution_witness :
  resolve_answer_pattern cfg_send msg_a
    = Ret "Hi {sender}, info: {context_results}" /\
  resolve_answer_pattern cfg_send msg_b = Ret default_answer_pattern /\
  render_answer ("Hi " +:+ "{sender}" +:+ ", info: " +:+ "{context_results}" +:+ "")
    "a@x.com" ("Meeting is at 3pm" +:+ newline)
  = Ret ("Hi " +:+ "a@x.com" +:+ ", info: " +:+
         ("Meeting is at 3pm" +:+ newline) +:+ "").
Proof.
  pose proof (C2_pattern_resolution cfg_send msg_a) as (Hhit & _ & Hsub & _).
  pose proof (C2_pattern_resolution cfg_send msg_b) as (_ & Hmiss & _).
  split; [|split].
  - apply (Hhit (mk_entry "Hi {sender}, info: {context_results}" "send"));
      vm_compute; reflexivity.
  - apply Hmiss. vm_compute; reflexivity.
  - apply (Hsub "Hi " ", info: " "" ("Meeting is at 3pm" +:+ newline));
      reflexivity.
Defined.

(** The pattern of the specification's example names a keyword the call does
    not pass: rendering raises [KeyError] instead of returning a string. *)
Lemma C2_context_placeholder_counterexample :
  render_answer "Hi {sender}: {context}" "a@x.com" "C"
    = Raise (KeyError "context") /\
  render_answer "Hi {sender}: {context}" "a@x.com" "C" <> Ret "Hi a@x.com: C" /\
  default_answer_pattern <>
    "Hello {sender}, I am the email assistant. I have found the following information for your question: {context}".
Proof.
  split; [reflexivity|]. split; [|intros H; vm_compute in H]; discriminate.
Qed.

(** The default pattern reads the attribute [email] of its [sender] argument,
    which is the address string itself: rendering it raises. *)
Example default_pattern_raises (s ctx : string) :
  render_answer default_answer_pattern s ctx = Raise (AttributeError "email").
Proof. reflexivity. Qed.

(** ** The sender filter *)

Lemma filter_py_in (S : list string) (M : list EmailMessageModel) :
  List.filter (fun msg => py_in (email (sender msg)) S) M =
  filter (fun msg => email (sender msg) ∈ S) M.
Proof.
  induction M as [|x M IH]; [reflexivity|].
  simpl. rewrite filter_cons, IH.
  destruct (py_in (email (sender x)) S) eqn:E.
  - apply py_in_elem_of in E. by rewrite decide_True.
  - rewrite decide_False; [reflexivity|].
    intros Hin. apply py_in_elem_of in Hin. congruence.
Qed.

Lemma filter_not_py_in (S : list string) (M : list EmailMessageModel) :
  List.filter (fun msg => negb (py_in (email (sender msg)) S)) M =
  filter (fun msg => email (sender msg) ∉ S) M.
Proof.
  induction M as [|x M IH]; [reflexivity|].
  simpl. rewrite filter_cons, IH.
  destruct (py_in (email (sender x)) S) eqn:E; simpl.
  - apply py_in_elem_of in E. by rewrite decide_False by (intros H; by apply H).
  - rewrite decide_True; [reflexivity|].
    intros Hin. apply py_in_elem_of in Hin. congruence.
Qed.

(** [return filtered_emails] and [return []] agree. *)
Lemma return_filtered {A} (l : list A) :
  (if negb (length l =? 0)%nat then @ret (list A) l else ret []) = ret l.
Proof. by destruct l. Qed.




(** C4. With a non-empty whitelist and a non-empty blacklist the filter
    raises the configuration error, and it does so without any external
    call: the trace is left as it was. *)
Theorem C4_both_lists_rejected (W : World) (coll : string) (limit : Z)
    (S1 S2 : list string) (tr : trace) :
  S1 <> [] -> S2 <> [] ->
  check_new_emails W coll limit (Some S1) (Some S2) tr
    = (tr, Raise (ValueError "Whitelist and blacklist cannot be used together")) /\
  email_database_creation W (Some S1) (Some S2) coll tr
    = (tr, Raise (ValueError "Whitelist and blacklist cannot be used together")).
Proof. intros _ _. split; reflexivity. Qed.

Lemma C4_both_lists_rejected_witness :
  check_new_emails world_send "Email" 5 (Some ["a@x.com"]) (Some ["b@x.com"]) []
    = ([], Raise (ValueError "Whitelist and blacklist cannot be used together")) /\
  email_database_creation world_send (Some ["a@x.com"]) (Some ["b@x.com"]) "Email" []
    = ([], Raise (ValueError "Whitelist and blacklist cannot be used together")).
Proof.
  apply (C4_both_lists_rejected world_send "Email" 5 ["a@x.com"] ["b@x.com"] []);
    discriminate.
Defined.

(** ** Dispatch *)

(** C5. For an answer that was composed: when the sender's entry has the
    answer type ["draft"], the only call made is the creation of a draft;
    when the sender has no entry, or its entry has another answer type, the
    only call made is the direct send.  Both carry the subject
    ["RE: " + subject] and the answer as body. *)
Theorem C5_dispatch_routing (W : World) (cfg : Config)
    (m : EmailMessageModel) (a : string) (tr : trace) :
  (forall entry,
     cfg_answer_patterns cfg !! email (sender m) = Some entry ->
     entry !! "answer_type" = Some "draft" ->
     fst (dispatch W cfg m (Some a) tr)
       = tr ++ [ECreateDraft (sender m) ("RE: " +:+ subject m) a]) /\
  (cfg_answer_patterns cfg !! email (sender m) = None ->
     fst (dispatch W cfg m (Some a) tr)
       = tr ++ [ESendMessageDirect (sender m) ("RE: " +:+ subject m) a]) /\
  (forall entry t,
     cfg_answer_patterns cfg !! email (sender m) = Some entry ->
     entry !! "answer_type" = Some t -> t <> "draft" ->
     fst (dispatch W cfg m (Some a) tr)
       = tr ++ [ESendMessageDirect (sender m) ("RE: " +:+ subject m) a]).
Proof.
  unfold dispatch, wants_draft, bind, lift, draft_answer_for_email,
    send_answer_to_email, call.
  split; [|split].
  - intros entry He Ht. rewrite He, Ht. cbn.
    by destruct (w_create_draft W _).
  - intros Hn. rewrite Hn. cbn.
    by destruct (w_send_message_direct W _).
  - intros entry t He Ht Hne. rewrite He, Ht.
    destruct (String.eqb_spec t "draft") as [->|_]; [contradiction|].
    cbn. by destruct (w_send_message_direct W _).
Qed.

Lemma C5_dispatch_routing_witness :
  fst (dispatch world_send cfg_draft msg_a (Some "answer") [])
    = [ECreateDraft (addr "a@x.com") "RE: Meeting?" "answer"] /\
  fst (dispatch world_send cfg_draft msg_b (Some "answer") [])
    = [ESendMessageDirect (addr "b@x.com") "RE: Lunch?" "answer"] /\
  fst (dispatch world_send cfg_send msg_a (Some "answer") [])
    = [ESendMessageDirect (addr "a@x.com") "RE: Meeting?" "answer"].
Proof.
  pose proof (C5_dispatch_routing world_send cfg_draft msg_a "answer" [])
    as (Hd & _ & _).
  pose proof (C5_dispatch_routing world_send cfg_draft msg_b "answer" [])
    as (_ & Hn & _).
  pose proof (C5_dispatch_routing world_send cfg_send msg_a "answer" [])
    as (_ & _ & Hs).
  split; [|split].
  - apply (Hd (mk_entry "Hi {sender}, info: {context_results}" "draft"));
      vm_compute; reflexivity.
  - apply Hn. vm_compute; reflexivity.
  - apply (Hs (mk_entry "Hi {sender}, info: {context_results}" "send") "send");
      [vm_compute; reflexivity | vm_compute; reflexivity | discriminate].
Defined.

(** An entry without the key ["answer_type"] makes the test itself raise. *)
Example dispatch_missing_answer_type :
  dispatch world_send
    (mk_config (Some None) (Some None)
       {[ "a@x.com" := {[ "answer_pattern" := "{context_results}" ]} ]})
    msg_a (Some "answer") []
  = ([], Raise (KeyError "answer_type")).
Proof. vm_compute. reflexivity. Qed.

(** [get_answer_for_email] only calls the body normaliser and the search. *)
Lemma get_answer_for_email_calls (W : World) (cfg : Config)
    (m : EmailMessageModel) (coll : string) (tr : trace) :
  exists evs,
    fst (get_answer_for_email W cfg m coll tr) = tr ++ evs /\
    Forall (fun e => is_reply_call e = false) evs.
Proof.
  unfold get_answer_for_email, bind, lift, call.
  destruct (resolve_answer_pattern cfg m) as [p|e|].
  2,3: exists []; rewrite app_nil_r; split; [reflexivity | constructor].
  destruct (w_clean_email_body W (tr ++ [ECleanEmailBody m])) as [e|q].
  { exists [ECleanEmailBody m]. split; [reflexivity|]. by repeat constructor. }
  exists [ECleanEmailBody m; ESearch q coll HYBRID 3].
  split; [|by repeat constructor].
  destruct (w_search W _); cbn [fst]; by rewrite <- app_assoc.
Qed.

(** C7. Without an answer nothing is dispatched: [dispatch] leaves the trace
    as it is, and the processing of a message whose answer is [None] makes no
    draft and no send call. *)
Theorem C7_none_is_noop (W : World) (cfg : Config)
    (m : EmailMessageModel) (tr : trace) :
  dispatch W cfg m None tr = (tr, Ret tt) /\
  (snd (get_answer_for_email W cfg m "Email" tr) = Ret None ->
   process_message W cfg m tr
     = (fst (get_answer_for_email W cfg m "Email" tr), Ret tt) /\
   exists evs,
     fst (process_message W cfg m tr) = tr ++ evs /\
     Forall (fun e => is_reply_call e = false) evs).
Proof.
  split; [reflexivity|].
  intros Hnone.
  assert (process_message W cfg m tr
          = (fst (get_answer_for_email W cfg m "Email" tr), Ret tt)) as Hpm.
  { unfold process_message, bind.
    destruct (get_answer_for_email W cfg m "Email" tr) as [tr1 o].
    cbn [snd] in Hnone. subst o. reflexivity. }
  split; [exact Hpm|].
  rewrite Hpm. cbn [fst]. apply get_answer_for_email_calls.
Qed.

Lemma C7_none_is_noop_witness :
  process_message world_no_context cfg_send msg_a []
  = ([ECleanEmailBody msg_a; ESearch "When is the meeting?" "Email" HYBRID 3],
     Ret tt).
Proof.
  pose proof (C7_none_is_noop world_no_context cfg_send msg_a []) as [_ H].
  destruct H as [H _]; [vm_compute; reflexivity|].
  rewrite H. vm_compute. reflexivity.
Defined.

(** A search without results: the whole run makes no draft and no send. *)
Example scenario_no_context :
  email_assistant_workflow world_no_context 3 [] =
  ([EInitializeEmailProfile; EInitializeKnowledgeBaseManager; EListCollections;
    ELoadConfig "email_assistant_config.json"; ECheckNewEmails 5 true;
    ECleanEmailBody msg_a;
    ESearch "When is the meeting?" "Email" HYBRID 3;
    EIsatty; ESetCbreak; EReadKeys 120; ERestoreTerminal;
    EDisconnect; EClose],
   Some (Ret tt)).
Proof. vm_compute. reflexivity. Qed.

(** ** The search *)

(** C6, as the code has it.  The search is a hybrid search for the three
    best results, and its query is the string the body normaliser returned
    for the message, nothing else. *)
Theorem C6_search_call (W : World) (cfg : Config) (m : EmailMessageModel)
    (coll : string) (tr : trace) (p q : string) :
  resolve_answer_pattern cfg m = Ret p ->
  w_clean_email_body W (tr ++ [ECleanEmailBody m]) = inr q ->
  fst (get_answer_for_email W cfg m coll tr)
    = (tr ++ [ECleanEmailBody m]) ++ [ESearch q coll HYBRID 3].
Proof.
  intros Hp Hq. unfold get_answer_for_email, bind, lift, call.
  rewrite Hp, Hq. by destruct (w_search W _).
Qed.

Lemma C6_search_call_witness :
  fst (get_answer_for_email world_send cfg_send msg_a "Email" [])
    = [ECleanEmailBody msg_a; ESearch "When is the meeting?" "Email" HYBRID 3].
Proof.
  apply (C6_search_call world_send cfg_send msg_a "Email" []
           "Hi {sender}, info: {context_results}" "When is the meeting?");
    vm_compute; reflexivity.
Defined.

(** With a normaliser that returns the cleaned body, the query does not
    contain the subject of the message. *)
Lemma C6_subject_counterexample :
  ~ (forall (W : World) cfg m coll tr q s k,
       ESearch q coll s k ∈ fst (get_answer_for_email W cfg m coll tr) ->
       str_contains q (subject m) = true).
Proof.
  intros H.
  specialize (H world_send cfg_send msg_a "Email" []
                "When is the meeting?" HYBRID 3%Z).
  assert (str_contains "When is the meeting?" (subject msg_a) = false) as Hf
    by reflexivity.
  rewrite H in Hf; [discriminate|].
  replace (fst (get_answer_for_email world_send cfg_send msg_a "Email" []))
    with [ECleanEmailBody msg_a;
          ESearch "When is the meeting?" "Email" HYBRID 3]
    by (vm_compute; reflexivity).
  set_solver.
Qed.

(** ** The poll loop *)

(** C10. The filter raises the configuration error as soon as both lists are
    given, empty or not, before any external call; a configuration with both
    keys set to lists therefore makes a pass of the poll loop raise in
    whatever state it starts, and the loop ends with that error. *)
Theorem C10_both_non_null (W : World) (cfg : Config) (coll : string)
    (limit : Z) (wl bl : list string) (n : nat) (tr : trace) :
  check_new_emails W coll limit (Some wl) (Some bl) tr
    = (tr, Raise (ValueError "Whitelist and blacklist cannot be used together")) /\
  check_new_emails W coll limit (Some []) (Some []) tr
    = (tr, Raise (ValueError "Whitelist and blacklist cannot be used together")) /\
  email_database_creation W (Some wl) (Some bl) coll tr
    = (tr, Raise (ValueError "Whitelist and blacklist cannot be used together")) /\
  (cfg_whitelist cfg = Some (Some wl) ->
   cfg_blacklist cfg = Some (Some bl) ->
   poll_iteration W cfg tr
     = (tr, Raise (ValueError "Whitelist and blacklist cannot be used together")) /\
   poll_loop W cfg (S n) tr
     = (tr, Some (Raise (ValueError "Whitelist and blacklist cannot be used together")))).
Proof.
  split; [reflexivity|]. split; [reflexivity|]. split; [reflexivity|].
  intros Hw Hb.
  assert (poll_iteration W cfg tr = (tr, Raise config_error)) as Hit.
  { unfold poll_iteration, fetch_and_process, bind, getitem. by rewrite Hw, Hb. }
  split; [exact Hit|].
  cbn [poll_loop]. by rewrite Hit.
Qed.

Lemma C10_both_non_null_witness :
  poll_iteration world_both_empty cfg_both_empty []
    = ([], Raise (ValueError "Whitelist and blacklist cannot be used together")) /\
  poll_loop world_both_empty cfg_both_empty 1 []
    = ([], Some (Raise (ValueError "Whitelist and blacklist cannot be used together"))).
Proof.
  pose proof (C10_both_non_null world_both_empty cfg_both_empty "Email" 5
                [] [] 0 []) as (_ & _ & _ & H).
  apply H; reflexivity.
Defined.

(** With both keys set to empty lists the run never fetches a message. *)
Example scenario_both_empty :
  email_assistant_workflow world_both_empty 3 [] =
  ([EInitializeEmailProfile; EInitializeKnowledgeBaseManager; EListCollections;
    ELoadConfig "email_assistant_config.json"; EDisconnect; EClose],
   Some (Raise (ValueError "Whitelist and blacklist cannot be used together"))).
Proof. vm_compute. reflexivity. Qed.

(** The events of the [finally] block when both handles exist: [disconnect],
    and [close] only when [disconnect] returned. *)
Lemma cleanup_trace (W : World) (tr : trace) :
  fst (cleanup W true true tr) =
  (tr ++ [EDisconnect]) ++
  match w_disconnect W (tr ++ [EDisconnect]) with
  | inr _ => [EClose]
  | inl _ => []
  end.
Proof.
  unfold cleanup, bind, call.
  destruct (w_disconnect W (tr ++ [EDisconnect])); cbn [fst].
  - by rewrite app_nil_r.
  - reflexivity.
Qed.

Lemma finish_run (W : World) (o : outcome unit) (tr : trace) :
  finish W true true o tr =
  (fst (cleanup W true true tr),
   match w_disconnect W (tr ++ [EDisconnect]) with
   | inl e => Raise e
   | inr _ =>
       match w_close W ((tr ++ [EDisconnect]) ++ [EClose]) with
       | inl e => Raise e
       | inr _ => o
       end
   end).
Proof.
  unfold finish, try_finally, lift, cleanup, bind, call.
  destruct (w_disconnect W (tr ++ [EDisconnect])) as [e|[]]; [reflexivity|].
  destruct (w_close W ((tr ++ [EDisconnect]) ++ [EClose])) as [e|[]];
    reflexivity.
Qed.

(** The run once the loop has been entered and has come to an end. *)
Lemma workflow_after_loop (W : World) (cfg : Config) (fuel : nat)
    (tr tr3 tr4 : trace) (o : outcome unit) :
  w_initialize_email_profile W (tr ++ [EInitializeEmailProfile]) = inr tt ->
  w_initialize_knowledge_base_manager W
    ((tr ++ [EInitializeEmailProfile]) ++ [EInitializeKnowledgeBaseManager])
    = inr tt ->
  bootstrap W
    ((tr ++ [EInitializeEmailProfile]) ++ [EInitializeKnowledgeBaseManager])
    = (tr3, Ret cfg) ->
  poll_loop W cfg fuel tr3 = (tr4, Some o) ->
  email_assistant_workflow W fuel tr =
  (fst (finish W true true o tr4), Some (snd (finish W true true o tr4))).
Proof.
  intros H1 H2 Hb Hl.
  unfold email_assistant_workflow, initialize_email_profile,
    initialize_knowledge_base_manager, call.
  rewrite H1, H2, Hb, Hl.
  by destruct (finish W true true o tr4).
Qed.

(** C8, as the code has it.  Whenever the poll loop comes to an end, by a
    quit request or by an exception raised at any point of a pass, the
    [finally] block runs next: [disconnect] is called, and [close] is called
    after it when [disconnect] returns.  The run then ends with the outcome
    of the loop, unless the block itself raised. *)
Theorem C8_cleanup_on_exit (W : World) (cfg : Config) (fuel : nat)
    (tr tr3 tr4 : trace) (o : outcome unit) :
  w_initialize_email_profile W (tr ++ [EInitializeEmailProfile]) = inr tt ->
  w_initialize_knowledge_base_manager W
    ((tr ++ [EInitializeEmailProfile]) ++ [EInitializeKnowledgeBaseManager])
    = inr tt ->
  bootstrap W
    ((tr ++ [EInitializeEmailProfile]) ++ [EInitializeKnowledgeBaseManager])
    = (tr3, Ret cfg) ->
  poll_loop W cfg fuel tr3 = (tr4, Some o) ->
  fst (email_assistant_workflow W fuel tr) =
    (tr4 ++ [EDisconnect]) ++
    match w_disconnect W (tr4 ++ [EDisconnect]) with
    | inr _ => [EClose]
    | inl _ => []
    end /\
  (w_disconnect W (tr4 ++ [EDisconnect]) = inr tt ->
   fst (email_assistant_workflow W fuel tr) = tr4 ++ [EDisconnect; EClose]) /\
  snd (email_assistant_workflow W fuel tr) =
    Some match w_disconnect W (tr4 ++ [EDisconnect]) with
         | inl e => Raise e
         | inr _ =>
             match w_close W ((tr4 ++ [EDisconnect]) ++ [EClose]) with
             | inl e => Raise e
             | inr _ => o
             end
         end.
Proof.
  intros H1 H2 Hb Hl.
  rewrite (workflow_after_loop W cfg fuel tr tr3 tr4 o H1 H2 Hb Hl).
  rewrite finish_run. cbn [fst snd]. rewrite cleanup_trace.
  split; [reflexivity|]. split; [|reflexivity].
  intros ->. by rewrite <- app_assoc.
Qed.

Lemma C8_cleanup_on_exit_witness :
  fst (email_assistant_workflow world_send 3 []) =
    [EInitializeEmailProfile; EInitializeKnowledgeBaseManager; EListCollections;
     ELoadConfig "email_assistant_config.json"; ECheckNewEmails 5 true;
     ECleanEmailBody msg_a;
     ESearch "When is the meeting?" "Email" HYBRID 3;
     ESendMessageDirect (addr "a@x.com") "RE: Meeting?"
       ("Hi a@x.com, info: Meeting is at 3pm" +:+ newline);
     EIsatty; ESetCbreak; EReadKeys 120; ERestoreTerminal]
    ++ [EDisconnect; EClose].
Proof.
  pose proof (C8_cleanup_on_exit world_send cfg_send 3 []
    [EInitializeEmailProfile; EInitializeKnowledgeBaseManager; EListCollections;
     ELoadConfig "email_assistant_config.json"]
    [EInitializeEmailProfile; EInitializeKnowledgeBaseManager; EListCollections;
     ELoadConfig "email_assistant_config.json"; ECheckNewEmails 5 true;
     ECleanEmailBody msg_a;
     ESearch "When is the meeting?" "Email" HYBRID 3;
     ESendMessageDirect (addr "a@x.com") "RE: Meeting?"
       ("Hi a@x.com, info: Meeting is at 3pm" +:+ newline);
     EIsatty; ESetCbreak; EReadKeys 120; ERestoreTerminal]
    (Ret tt)) as H.
  destruct H as (_ & H & _); [vm_compute; reflexivity ..|].
  apply H. vm_compute; reflexivity.
Defined.

(** When [disconnect] raises, the loop has ended by a quit request and yet
    the knowledge base is never closed. *)
Lemma C8_close_skipped_counterexample :
  ~ (forall (W : World) (fuel : nat) (o : outcome unit),
       snd (email_assistant_workflow W fuel []) = Some o ->
       ECheckNewEmails 5 true ∈ fst (email_assistant_workflow W fuel []) ->
       EDisconnect ∈ fst (email_assistant_workflow W fuel []) /\
       EClose ∈ fst (email_assistant_workflow W fuel [])).
Proof.
  intros H.
  specialize (H world_bad_disconnect 1%nat
                (Raise (CapabilityError "disconnect failed"))).
  assert (email_assistant_workflow world_bad_disconnect 1 [] =
    ([EInitializeEmailProfile; EInitializeKnowledgeBaseManager;
      EListCollections; ELoadConfig "email_assistant_config.json";
      ECheckNewEmails 5 true; ECleanEmailBody msg_a;
      ESearch "When is the meeting?" "Email" HYBRID 3;
      ESendMessageDirect (addr "a@x.com") "RE: Meeting?"
        ("Hi a@x.com, info: Meeting is at 3pm" +:+ newline);
      EIsatty; ESetCbreak; EReadKeys 120; ERestoreTerminal; EDisconnect],
     Some (Raise (CapabilityError "disconnect failed")))) as Hrun
    by (vm_compute; reflexivity).
  rewrite Hrun in H. cbn [fst snd] in H.
  destruct H as [_ Hclose]; [reflexivity | set_solver |].
  apply list_elem_of_In in Hclose. cbn [In] in Hclose.
  intuition discriminate.
Qed.

(** ** Which calls a statement can make *)

Section Emits.

Context {P : event -> Prop}.

Lemma emits_ret {A} (a : A) : emits P (ret a).
Proof. intros tr. exists []. by rewrite app_nil_r. Qed.

Lemma emits_raise {A} (e : exn) : emits P (@raise A e).
Proof. intros tr. exists []. by rewrite app_nil_r. Qed.

Lemma emits_lift {A} (o : outcome A) : emits P (lift o).
Proof. intros tr. exists []. by rewrite app_nil_r. Qed.

Lemma emits_getitem {A} (key : string) (o : option A) : emits P (getitem key o).
Proof. destruct o; [apply emits_ret | apply emits_raise]. Qed.

Lemma emits_call {A} (e : event) (respond : trace -> exn + A) :
  P e -> emits P (call e respond).
Proof. intros He tr. exists [e]. split; [reflexivity | by constructor]. Qed.

Lemma emits_bind {A B} (m : M A) (f : A -> M B) :
  emits P m -> (forall a, emits P (f a)) -> emits P (bind m f).
Proof.
  intros Hm Hf tr. destruct (Hm tr) as (evs & Htr & Hevs).
  unfold bind. destruct (m tr) as [tr1 [a|e|]]; cbn [fst] in Htr; subst tr1.
  - destruct (Hf a (tr ++ evs)) as (evs' & Htr' & Hevs').
    exists (evs ++ evs'). rewrite Htr', app_assoc.
    split; [reflexivity | by apply Forall_app].
  - by exists evs.
  - by exists evs.
Qed.

Lemma emits_try_finally {A} (body : M A) (fin : M unit) :
  emits P body -> emits P fin -> emits P (try_finally body fin).
Proof.
  intros Hb Hf tr. destruct (Hb tr) as (evs & Htr & Hevs).
  unfold try_finally. destruct (body tr) as [tr1 o]; cbn [fst] in Htr; subst tr1.
  destruct (Hf (tr ++ evs)) as (evs' & Htr' & Hevs').
  destruct (fin (tr ++ evs)) as [tr2 [[]|e|]]; cbn [fst] in Htr'; subst tr2.
  all: exists (evs ++ evs'); rewrite app_assoc;
    (split; [reflexivity | by apply Forall_app]).
Qed.

Lemma emits_for_each {A} (f : A -> M unit) (l : list A) :
  (forall x, emits P (f x)) -> emits P (for_each f l).
Proof.
  intros Hf. induction l as [|x l IH]; cbn [for_each].
  - apply emits_ret.
  - apply emits_bind; [apply Hf | intros _; apply IH].
Qed.

End Emits.

Lemma count_calls_app (f : event -> bool) (a b : trace) :
  count_calls f (a ++ b) = (count_calls f a + count_calls f b)%nat.
Proof. unfold count_calls. by rewrite List.filter_app, length_app. Qed.

Lemma count_calls_none (f : event -> bool) (evs : trace) :
  Forall (fun e => f e = false) evs -> count_calls f evs = 0%nat.
Proof.
  unfold count_calls. induction 1 as [|e evs He _ IH]; [reflexivity|].
  simpl. by rewrite He.
Qed.

Ltac emits_step :=
  first
    [ apply emits_ret | apply emits_raise | apply emits_lift
    | apply emits_getitem
    | apply emits_call; reflexivity
    | apply emits_bind; [|intros ?]
    | apply emits_try_finally
    | apply emits_for_each; intros ? ].

(** Nothing but the [finally] block closes the knowledge base. *)
Lemma wait_with_quit_no_close (W : World) (t : Z) :
  emits (fun e => is_close_call e = false) (wait_with_quit W t).
Proof.
  unfold wait_with_quit. emits_step; [emits_step|].
  destruct (negb a); repeat emits_step.
Qed.

Lemma check_new_emails_no_close (W : World) (coll : string) (limit : Z)
    (wl bl : option (list string)) :
  emits (fun e => is_close_call e = false) (check_new_emails W coll limit wl bl).
Proof.
  unfold check_new_emails.
  destruct wl, bl; repeat emits_step;
    match goal with |- emits _ (if ?c then _ else _) => destruct c end;
    emits_step.
Qed.

Lemma process_message_no_close (W : World) (cfg : Config)
    (m : EmailMessageModel) :
  emits (fun e => is_close_call e = false) (process_message W cfg m).
Proof.
  unfold process_message, get_answer_for_email, dispatch,
    draft_answer_for_email, send_answer_to_email.
  repeat emits_step.
  destruct a as [s|]; repeat emits_step.
  destruct a; repeat emits_step.
Qed.

Lemma poll_iteration_no_close (W : World) (cfg : Config) :
  emits (fun e => is_close_call e = false) (poll_iteration W cfg).
Proof.
  unfold poll_iteration, fetch_and_process.
  repeat first
    [ apply wait_with_quit_no_close | apply check_new_emails_no_close
    | apply process_message_no_close | emits_step ].
Qed.

Lemma poll_loop_no_close (W : World) (cfg : Config) (fuel : nat) (tr : trace) :
  exists evs,
    fst (poll_loop W cfg fuel tr) = tr ++ evs /\
    Forall (fun e => is_close_call e = false) evs.
Proof.
  revert tr. induction fuel as [|n IH]; intros tr; cbn [poll_loop].
  - exists []. by rewrite app_nil_r.
  - destruct (poll_iteration_no_close W cfg tr) as (evs & Htr & Hevs).
    destruct (poll_iteration W cfg tr) as [tr1 o]; cbn [fst] in Htr; subst tr1.
    destruct o as [[|]|e|]; try by exists evs.
    destruct (IH (tr ++ evs)) as (evs' & Htr' & Hevs').
    exists (evs ++ evs'). rewrite Htr', app_assoc.
    split; [reflexivity | by apply Forall_app].
Qed.

Lemma email_database_creation_no_close (W : World)
    (wl bl : option (list string)) (coll : string) :
  emits (fun e => is_close_call e = false) (email_database_creation W wl bl coll).
Proof.
  unfold email_database_creation. destruct wl, bl; repeat emits_step.
Qed.

Lemma bootstrap_no_close (W : World) :
  emits (fun e => is_close_call e = false) (bootstrap W).
Proof.
  unfold bootstrap, load_email_assistant_config.
  repeat emits_step.
  match goal with |- emits _ (if ?c then _ else _) => destruct c end;
    repeat first [apply email_database_creation_no_close | emits_step].
Qed.

(** Passes that end without a quit request and without an exception can be
    continued. *)
Lemma poll_loop_resume (W : World) (cfg : Config) (k n : nat)
    (tr trk : trace) :
  poll_loop W cfg k tr = (trk, None) ->
  poll_loop W cfg (k + n) tr = poll_loop W cfg n trk.
Proof.
  revert tr. induction k as [|k IH]; intros tr Hk; cbn [poll_loop Nat.add] in *.
  - by inversion Hk.
  - destruct (poll_iteration W cfg tr) as [tr1 [[|]|e|]]; try discriminate.
    by apply IH.
Qed.

(** A wait that reports a quit request has read a quit key from the
    terminal, and has made these four calls. *)
Lemma wait_with_quit_true (W : World) (t : Z) (tr tr' : trace) :
  wait_with_quit W t tr = (tr', Ret true) ->
  tr' = tr ++ [EIsatty; ESetCbreak; EReadKeys t; ERestoreTerminal] /\
  exists ts,
    w_read_keys W (tr ++ [EIsatty; ESetCbreak; EReadKeys t]) = inr ts /\
    scan_keys ts = true.
Proof.
  unfold wait_with_quit, bind, call, try_finally, ret.
  destruct (w_isatty W (tr ++ [EIsatty])); cbn [negb].
  - rewrite <- !app_assoc. cbn [app].
    destruct (w_read_keys W (tr ++ [EIsatty; ESetCbreak; EReadKeys t]))
      as [e|ts]; [discriminate|].
    intros H. inversion H as [[Htr Hs]]. rewrite Hs.
    split; [by rewrite <- app_assoc | eauto].
  - destruct (w_sleep W _); discriminate.
Qed.

(** C9, as the code has it.  When the wait of a pass sees a quit request,
    the loop ends there: the run goes on with one execution of the
    [finally] block and nothing else, so that no further fetch is made and
    [disconnect] is called once after the wait.  The knowledge base is
    closed exactly once in the whole run when that [disconnect] returns, and
    not at all when it raises; the run then ends with its exception. *)
Theorem C9_quit_terminates (W : World) (cfg : Config) (fuel k : nat)
    (tr tr3 trk trw trq : trace) :
  w_initialize_email_profile W (tr ++ [EInitializeEmailProfile]) = inr tt ->
  w_initialize_knowledge_base_manager W
    ((tr ++ [EInitializeEmailProfile]) ++ [EInitializeKnowledgeBaseManager])
    = inr tt ->
  bootstrap W
    ((tr ++ [EInitializeEmailProfile]) ++ [EInitializeKnowledgeBaseManager])
    = (tr3, Ret cfg) ->
  poll_loop W cfg k tr3 = (trk, None) ->
  fetch_and_process W cfg trk = (trw, Ret tt) ->
  wait_with_quit W 120 trw = (trq, Ret true) ->
  (k < fuel)%nat ->
  let closing :=
    match w_disconnect W (trq ++ [EDisconnect]) with
    | inr _ => [EClose]
    | inl _ => []
    end in
  trq = trw ++ [EIsatty; ESetCbreak; EReadKeys 120; ERestoreTerminal] /\
  fst (email_assistant_workflow W fuel tr) = fst (cleanup W true true trq) /\
  fst (email_assistant_workflow W fuel tr) = trq ++ EDisconnect :: closing /\
  Forall (fun e => is_fetch_call e = false) (EDisconnect :: closing) /\
  count_calls is_disconnect_call (EDisconnect :: closing) = 1%nat /\
  (exists evs,
     fst (email_assistant_workflow W fuel tr) = tr ++ evs /\
     count_calls is_close_call evs = length closing /\
     (count_calls is_close_call evs <= 1)%nat /\
     (w_disconnect W (trq ++ [EDisconnect]) = inr tt ->
      count_calls is_close_call evs = 1%nat) /\
     (forall e, w_disconnect W (trq ++ [EDisconnect]) = inl e ->
      count_calls is_close_call evs = 0%nat)) /\
  (w_disconnect W (trq ++ [EDisconnect]) = inr tt ->
   fst (email_assistant_workflow W fuel tr) = trq ++ [EDisconnect; EClose]) /\
  (forall e, w_disconnect W (trq ++ [EDisconnect]) = inl e ->
   email_assistant_workflow W fuel tr = (trq ++ [EDisconnect], Some (Raise e))).
Proof.
  intros H1 H2 Hb Hk Hf Hw Hlt closing.
  destruct (wait_with_quit_true W 120 trw trq Hw) as [Htrq _].
  assert (poll_loop W cfg fuel tr3 = (trq, Some (Ret tt))) as Hloop.
  { replace fuel with (k + S (fuel - S k))%nat by lia.
    rewrite (poll_loop_resume W cfg k _ tr3 trk Hk).
    cbn [poll_loop]. unfold poll_iteration, bind. by rewrite Hf, Hw. }
  pose proof (workflow_after_loop W cfg fuel tr tr3 trq (Ret tt) H1 H2 Hb Hloop)
    as Hrun.
  rewrite finish_run in Hrun. cbn [fst snd] in Hrun.
  assert (fst (email_assistant_workflow W fuel tr) = trq ++ EDisconnect :: closing)
    as Htrace.
  { rewrite Hrun. cbn [fst]. rewrite cleanup_trace.
    by rewrite <- app_assoc. }
  split; [exact Htrq|].
  split; [by rewrite Hrun|].
  split; [exact Htrace|].
  split.
  { subst closing. destruct (w_disconnect W _); by repeat constructor. }
  split.
  { subst closing. by destruct (w_disconnect W _). }
  destruct (bootstrap_no_close W
              ((tr ++ [EInitializeEmailProfile]) ++
               [EInitializeKnowledgeBaseManager])) as (eb & Heb & Hnb).
  rewrite Hb in Heb. cbn [fst] in Heb.
  destruct (poll_loop_no_close W cfg fuel tr3) as (el & Hel & Hnl).
  rewrite Hloop in Hel. cbn [fst] in Hel.
  assert (count_calls is_close_call
            ([EInitializeEmailProfile; EInitializeKnowledgeBaseManager] ++ eb
             ++ el ++ EDisconnect :: closing) = length closing) as Hcount.
  { rewrite !count_calls_app.
    rewrite (count_calls_none _ eb Hnb), (count_calls_none _ el Hnl).
    subst closing. by destruct (w_disconnect W _). }
  split; [|split].
  - exists ([EInitializeEmailProfile; EInitializeKnowledgeBaseManager] ++ eb
            ++ el ++ EDisconnect :: closing).
    split; [rewrite Htrace, Hel, Heb; by rewrite <- !app_assoc|].
    split; [exact Hcount|].
    rewrite Hcount. subst closing.
    split; [destruct (w_disconnect W _); simpl; lia|].
    split; [by intros -> | by intros e ->].
  - intros Hd. rewrite Htrace. subst closing. by rewrite Hd.
  - intros e Hd.
    rewrite (surjective_pairing (email_assistant_workflow W fuel tr)).
    rewrite Htrace. subst closing. rewrite Hrun, Hd. reflexivity.
Qed.

Lemma C9_quit_terminates_witness :
  fst (email_assistant_workflow world_second_wait 5 []) =
    [EInitializeEmailProfile; EInitializeKnowledgeBaseManager; EListCollections;
     ELoadConfig "email_assistant_config.json";
     ECheckNewEmails 5 true;
     EIsatty; ESetCbreak; EReadKeys 120; ERestoreTerminal;
     ECheckNewEmails 5 true;
     EIsatty; ESetCbreak; EReadKeys 120; ERestoreTerminal]
    ++ [EDisconnect; EClose].
Proof.
  pose proof (C9_quit_terminates world_second_wait cfg_send 5 1 []
    [EInitializeEmailProfile; EInitializeKnowledgeBaseManager; EListCollections;
     ELoadConfig "email_assistant_config.json"]
    [EInitializeEmailProfile; EInitializeKnowledgeBaseManager; EListCollections;
     ELoadConfig "email_assistant_config.json";
     ECheckNewEmails 5 true;
     EIsatty; ESetCbreak; EReadKeys 120; ERestoreTerminal]
    [EInitializeEmailProfile; EInitializeKnowledgeBaseManager; EListCollections;
     ELoadConfig "email_assistant_config.json";
     ECheckNewEmails 5 true;
     EIsatty; ESetCbreak; EReadKeys 120; ERestoreTerminal;
     ECheckNewEmails 5 true]
    [EInitializeEmailProfile; EInitializeKnowledgeBaseManager; EListCollections;
     ELoadConfig "email_assistant_config.json";
     ECheckNewEmails 5 true;
     EIsatty; ESetCbreak; EReadKeys 120; ERestoreTerminal;
     ECheckNewEmails 5 true;
     EIsatty; ESetCbreak; EReadKeys 120; ERestoreTerminal]) as H.
  destruct H as (_ & _ & H & _);
    [vm_compute; reflexivity .. | lia |].
  exact H.
Defined.

(** With a [disconnect] that raises, the quit request is seen in the first
    wait and the run ends right after the [disconnect] call: the knowledge
    base is never closed, so the clean-up of both handles is not run. *)
Lemma C9_cleanup_once_counterexample :
  ~ (forall (W : World) (cfg : Config) (fuel k : nat)
            (tr tr3 trk trw trq : trace),
       w_initialize_email_profile W (tr ++ [EInitializeEmailProfile]) = inr tt ->
       w_initialize_knowledge_base_manager W
         ((tr ++ [EInitializeEmailProfile]) ++ [EInitializeKnowledgeBaseManager])
         = inr tt ->
       bootstrap W
         ((tr ++ [EInitializeEmailProfile]) ++ [EInitializeKnowledgeBaseManager])
         = (tr3, Ret cfg) ->
       poll_loop W cfg k tr3 = (trk, None) ->
       fetch_and_process W cfg trk = (trw, Ret tt) ->
       wait_with_quit W 120 trw = (trq, Ret true) ->
       (k < fuel)%nat ->
       fst (email_assistant_workflow W fuel tr) = trq ++ [EDisconnect; EClose]).
Proof.
  intros H.
  specialize (H world_bad_disconnect cfg_send 1%nat 0%nat []
    [EInitializeEmailProfile; EInitializeKnowledgeBaseManager; EListCollections;
     ELoadConfig "email_assistant_config.json"]
    [EInitializeEmailProfile; EInitializeKnowledgeBaseManager; EListCollections;
     ELoadConfig "email_assistant_config.json"]
    [EInitializeEmailProfile; EInitializeKnowledgeBaseManager; EListCollections;
     ELoadConfig "email_assistant_config.json"; ECheckNewEmails 5 true;
     ECleanEmailBody msg_a;
     ESearch "When is the meeting?" "Email" HYBRID 3;
     ESendMessageDirect (addr "a@x.com") "RE: Meeting?"
       ("Hi a@x.com, info: Meeting is at 3pm" +:+ newline)]
    [EInitializeEmailProfile; EInitializeKnowledgeBaseManager; EListCollections;
     ELoadConfig "email_assistant_config.json"; ECheckNewEmails 5 true;
     ECleanEmailBody msg_a;
     ESearch "When is the meeting?" "Email" HYBRID 3;
     ESendMessageDirect (addr "a@x.com") "RE: Meeting?"
       ("Hi a@x.com, info: Meeting is at 3pm" +:+ newline);
     EIsatty; ESetCbreak; EReadKeys 120; ERestoreTerminal]).
  assert (fst (email_assistant_workflow world_bad_disconnect 1 []) =
    [EInitializeEmailProfile; EInitializeKnowledgeBaseManager; EListCollections;
     ELoadConfig "email_assistant_config.json"; ECheckNewEmails 5 true;
     ECleanEmailBody msg_a;
     ESearch "When is the meeting?" "Email" HYBRID 3;
     ESendMessageDirect (addr "a@x.com") "RE: Meeting?"
       ("Hi a@x.com, info: Meeting is at 3pm" +:+ newline);
     EIsatty; ESetCbreak; EReadKeys 120; ERestoreTerminal] ++ [EDisconnect])
    as Hrun by (vm_compute; reflexivity).
  rewrite Hrun in H.
  specialize (H ltac:(vm_compute; reflexivity) ltac:(vm_compute; reflexivity)
                ltac:(vm_compute; reflexivity) ltac:(vm_compute; reflexivity)
                ltac:(vm_compute; reflexivity) ltac:(vm_compute; reflexivity)
                ltac:(lia)).
  apply app_inv_head in H. discriminate.
Qed.

(** * Further properties of the code *)

(** ** Waiting *)

Lemma is_quit_key_spec (ch : ascii) :
  is_quit_key ch = true <-> ch = "q"%char \/ ch = "Q"%char.
Proof.
  unfold is_quit_key. rewrite orb_true_iff, !Ascii.eqb_eq. reflexivity.
Qed.

(** X2.  The polling loop reports a quit request exactly when one of the
    characters read is [q] or [Q]; any other key and any idle poll is
    skipped. *)
Theorem scan_keys_spec (ts : list tick) :
  scan_keys ts = true <->
  exists ch, Key ch ∈ ts /\ (ch = "q"%char \/ ch = "Q"%char).
Proof.
  induction ts as [|t ts IH]; cbn [scan_keys].
  - split; [discriminate|]. intros (ch & Hin & _). inversion Hin.
  - destruct t as [|c].
    + rewrite IH. split; intros (ch & Hin & Hq); exists ch; (split; [|exact Hq]).
      * by right.
      * apply elem_of_cons in Hin as [Heq|Hin]; [discriminate | exact Hin].
    + destruct (is_quit_key c) eqn:Hc.
      * split; [intros _|reflexivity].
        exists c. split; [left | by apply is_quit_key_spec].
      * rewrite IH.
        split; intros (ch & Hin & Hq); exists ch; (split; [|exact Hq]).
        -- by right.
        -- apply elem_of_cons in Hin as [Heq|Hin]; [|exact Hin].
           apply is_quit_key_spec in Hq. congruence.
Qed.

(** X3.  On a terminal the wait makes the same four calls whatever the keyboard
    does: the terminal is restored after cbreak mode even when reading the
    keys raises, and that exception is the outcome. *)
Theorem wait_with_quit_restores_terminal (W : World) (t : Z) (tr : trace) :
  w_isatty W (tr ++ [EIsatty]) = true ->
  wait_with_quit W t tr =
  (tr ++ [EIsatty; ESetCbreak; EReadKeys t; ERestoreTerminal],
   match w_read_keys W (tr ++ [EIsatty; ESetCbreak; EReadKeys t]) with
   | inl e => Raise e
   | inr ts => Ret (scan_keys ts)
   end).
Proof.
  intros Htty.
  unfold wait_with_quit, bind, call, try_finally, ret.
  rewrite Htty. cbn [negb]. rewrite <- !app_assoc. cbn [app].
  destruct (w_read_keys W _); by rewrite <- app_assoc.
Qed.

Lemma wait_with_quit_restores_terminal_witness :
  wait_with_quit
    (with_replies (inr "d") (inr true) (inl KeyboardInterrupt) world_send)
    120 []
  = ([EIsatty; ESetCbreak; EReadKeys 120; ERestoreTerminal],
     Raise KeyboardInterrupt).
Proof.
  apply (wait_with_quit_restores_terminal
           (with_replies (inr "d") (inr true) (inl KeyboardInterrupt) world_send)
           120 []).
  reflexivity.
Defined.

(** Without a terminal the wait sleeps and never reports a quit request. *)
Lemma wait_with_quit_no_tty (W : World) (t : Z) (tr : trace) :
  w_isatty W (tr ++ [EIsatty]) = false ->
  wait_with_quit W t tr =
  (tr ++ [EIsatty; ESleep t],
   match w_sleep W (tr ++ [EIsatty; ESleep t]) with
   | inl e => Raise e
   | inr _ => Ret false
   end).
Proof.
  intros Htty.
  unfold wait_with_quit, bind, call, ret.
  rewrite Htty. cbn [negb]. rewrite <- !app_assoc. cbn [app].
  by destruct (w_sleep W _).
Qed.

Lemma poll_iteration_no_tty (W : World) (cfg : Config) (tr : trace) :
  (forall t, w_isatty W t = false) ->
  snd (poll_iteration W cfg tr) <> Ret true.
Proof.
  intros Htty. unfold poll_iteration, bind.
  destruct (fetch_and_process W cfg tr) as [tr1 [[]|e|]]; try discriminate.
  rewrite (wait_with_quit_no_tty W 120 tr1 (Htty _)). cbn [snd].
  by destruct (w_sleep W _).
Qed.

(** X4.  When the standard input is never a terminal, the loop cannot be left by
    a quit request: after any number of passes it is still running or has
    ended with an exception. *)
Theorem poll_loop_no_tty_never_quits (W : World) (cfg : Config)
    (fuel : nat) (tr : trace) :
  (forall t, w_isatty W t = false) ->
  snd (poll_loop W cfg fuel tr) <> Some (Ret tt).
Proof.
  intros Htty. revert tr.
  induction fuel as [|n IH]; intros tr; cbn [poll_loop]; [discriminate|].
  pose proof (poll_iteration_no_tty W cfg tr Htty) as Hne.
  destruct (poll_iteration W cfg tr) as [tr1 [[|]|e|]]; cbn [snd] in *;
    try discriminate; [congruence | apply IH].
Qed.

Lemma poll_loop_no_tty_never_quits_witness :
  snd (poll_loop (with_isatty false world_send) cfg_send 4 []) <> Some (Ret tt).
Proof.
  apply (poll_loop_no_tty_never_quits (with_isatty false world_send) cfg_send 4 []).
  intros t. reflexivity.
Defined.

(** ** Errors in a pass *)

Lemma for_each_app {A} (f : A -> M unit) (l1 l2 : list A) (tr tr1 : trace) :
  for_each f l1 tr = (tr1, Ret tt) ->
  for_each f (l1 ++ l2) tr = for_each f l2 tr1.
Proof.
  revert tr. induction l1 as [|x l1 IH]; intros tr H; cbn [for_each app] in *.
  - unfold ret in H. by inversion H.
  - unfold bind in *. destruct (f x tr) as [tr' [[]|e|]]; try discriminate.
    by apply IH.
Qed.

(** X16.  There is no isolation between the messages of a batch: when answering
    one message raises, the messages after it are not processed, the pass
    ends without waiting and the loop ends with that exception. *)
Theorem batch_aborts_on_error (W : World) (cfg : Config)
    (wl bl : option (list string)) (l1 l2 : list EmailMessageModel)
    (x : EmailMessageModel) (tr tr0 tr1 tr2 : trace) (e : exn) (n : nat) :
  cfg_whitelist cfg = Some wl ->
  cfg_blacklist cfg = Some bl ->
  check_new_emails W "Email" 5 wl bl tr = (tr0, Ret (l1 ++ x :: l2)) ->
  for_each (process_message W cfg) l1 tr0 = (tr1, Ret tt) ->
  process_message W cfg x tr1 = (tr2, Raise e) ->
  for_each (process_message W cfg) (l1 ++ x :: l2) tr0 = (tr2, Raise e) /\
  poll_iteration W cfg tr = (tr2, Raise e) /\
  poll_loop W cfg (S n) tr = (tr2, Some (Raise e)).
Proof.
  intros Hw Hb Hc H1 Hx.
  assert (for_each (process_message W cfg) (l1 ++ x :: l2) tr0 = (tr2, Raise e))
    as Hfe.
  { rewrite (for_each_app _ l1 (x :: l2) tr0 tr1 H1).
    cbn [for_each]. unfold bind. by rewrite Hx. }
  assert (poll_iteration W cfg tr = (tr2, Raise e)) as Hit.
  { unfold poll_iteration, fetch_and_process, bind, getitem.
    rewrite Hw, Hb. unfold ret at 1 2. rewrite Hc. fold (@bind unit unit).
    by rewrite Hfe. }
  split; [exact Hfe|]. split; [exact Hit|].
  cbn [poll_loop]. by rewrite Hit.
Qed.

Lemma batch_aborts_on_error_witness :
  poll_loop world_open cfg_open 1 [] =
  ([ECheckNewEmails 5 true; ECleanEmailBody msg_b;
    ESearch "Where do we eat?" "Email" HYBRID 3],
   Some (Raise (AttributeError "email"))).
Proof.
  apply (batch_aborts_on_error world_open cfg_open None None [] [msg_a] msg_b
           [] [ECheckNewEmails 5 true] [ECheckNewEmails 5 true]
           [ECheckNewEmails 5 true; ECleanEmailBody msg_b;
            ESearch "Where do we eat?" "Email" HYBRID 3]
           (AttributeError "email") 0);
    vm_compute; reflexivity.
Defined.

(** X13.  A configuration without the key ["whitelist"], or with it but without
    the key ["blacklist"], makes a pass raise [KeyError] before anything is
    fetched. *)
Theorem missing_list_key_raises (W : World) (cfg : Config) (tr : trace) :
  (cfg_whitelist cfg = None ->
   poll_iteration W cfg tr = (tr, Raise (KeyError "whitelist"))) /\
  (forall wl, cfg_whitelist cfg = Some wl -> cfg_blacklist cfg = None ->
   poll_iteration W cfg tr = (tr, Raise (KeyError "blacklist"))).
Proof.
  split.
  - intros Hw. unfold poll_iteration, fetch_and_process, bind, getitem.
    by rewrite Hw.
  - intros wl Hw Hb. unfold poll_iteration, fetch_and_process, bind, getitem.
    by rewrite Hw, Hb.
Qed.

Lemma missing_list_key_raises_witness :
  poll_iteration world_send cfg_no_lists [] = ([], Raise (KeyError "whitelist")) /\
  poll_iteration world_send (mk_config (Some None) None ∅) []
    = ([], Raise (KeyError "blacklist")).
Proof.
  pose proof (missing_list_key_raises world_send cfg_no_lists []) as [H1 _].
  pose proof (missing_list_key_raises world_send
                (mk_config (Some None) None ∅) []) as [_ H2].
  split; [apply H1; reflexivity | apply (H2 None); reflexivity].
Defined.

(** ** Answers *)

(** X18.  An entry without the key ["answer_pattern"] makes [get_answer_for_email]
    raise [KeyError] before the body is normalised or anything is searched. *)
Theorem entry_without_pattern_raises (W : World) (cfg : Config)
    (m : EmailMessageModel) (coll : string) (tr : trace)
    (entry : gmap string string) :
  cfg_answer_patterns cfg !! email (sender m) = Some entry ->
  entry !! "answer_pattern" = None ->
  get_answer_for_email W cfg m coll tr = (tr, Raise (KeyError "answer_pattern")).
Proof.
  intros He Hp.
  unfold get_answer_for_email, bind, lift, resolve_answer_pattern.
  by rewrite He, Hp.
Qed.

Lemma entry_without_pattern_raises_witness :
  get_answer_for_email world_send cfg_no_pattern msg_a "Email" []
  = ([], Raise (KeyError "answer_pattern")).
Proof.
  apply (entry_without_pattern_raises world_send cfg_no_pattern msg_a "Email" []
           {[ "answer_type" := "send" ]}); vm_compute; reflexivity.
Defined.

(** X19.  A sender without an entry is never answered: with no confident result
    the answer is [None], and with one the rendering of the default pattern
    raises [AttributeError], because the pattern reads [sender.email] from
    an address that is already a string. *)
Theorem unlisted_sender_never_answered (W : World) (cfg : Config)
    (m : EmailMessageModel) (coll : string) (tr : trace) (q : string)
    (results : list ContextResult) :
  cfg_answer_patterns cfg !! email (sender m) = None ->
  w_clean_email_body W (tr ++ [ECleanEmailBody m]) = inr q ->
  w_search W ((tr ++ [ECleanEmailBody m]) ++ [ESearch q coll HYBRID 3])
    = inr results ->
  snd (get_answer_for_email W cfg m coll tr) =
  match List.filter confident results with
  | [] => Ret None
  | _ :: _ => Raise (AttributeError "email")
  end.
Proof.
  intros Hn Hq Hr.
  assert (resolve_answer_pattern cfg m = Ret default_answer_pattern) as Hp.
  { unfold resolve_answer_pattern. by rewrite Hn. }
  rewrite (get_answer_for_email_run W cfg m coll tr _ q results Hp Hq Hr).
  cbn [snd]. rewrite answer_from_results_joined.
  destruct (List.filter confident results); [reflexivity|].
  by rewrite default_pattern_raises.
Qed.

Lemma unlisted_sender_never_answered_witness :
  snd (get_answer_for_email world_open cfg_open msg_b "Email" [])
  = Raise (AttributeError "email").
Proof.
  apply (unlisted_sender_never_answered world_open cfg_open msg_b "Email" []
           "Where do we eat?" [result_3pm]); vm_compute; reflexivity.
Defined.

(** ** Dispatch *)

(** X23.  The success flag of a send is dropped: the dispatch returns normally
    even when [send_message_direct] reports a failure.  A failing draft is
    not retried as a send: its exception is the outcome. *)
Theorem dispatch_ignores_send_flag (W : World) (cfg : Config)
    (m : EmailMessageModel) (a : string) (tr : trace) :
  (forall b,
     wants_draft cfg m = Ret false ->
     w_send_message_direct W
       (tr ++ [ESendMessageDirect (sender m) ("RE: " +:+ subject m) a]) = inr b ->
     dispatch W cfg m (Some a) tr
       = (tr ++ [ESendMessageDirect (sender m) ("RE: " +:+ subject m) a], Ret tt)) /\
  (forall e,
     wants_draft cfg m = Ret true ->
     w_create_draft W
       (tr ++ [ECreateDraft (sender m) ("RE: " +:+ subject m) a]) = inl e ->
     dispatch W cfg m (Some a) tr
       = (tr ++ [ECreateDraft (sender m) ("RE: " +:+ subject m) a], Raise e)).
Proof.
  split.
  - intros b Hd Hs.
    unfold dispatch, bind, lift, send_answer_to_email, call.
    by rewrite Hd, Hs.
  - intros e Hd Hc.
    unfold dispatch, bind, lift, draft_answer_for_email, call.
    by rewrite Hd, Hc.
Qed.

Lemma dispatch_ignores_send_flag_witness :
  dispatch (with_replies (inr "d") (inr false) (inr []) world_send)
    cfg_send msg_a (Some "answer") []
    = ([ESendMessageDirect (addr "a@x.com") "RE: Meeting?" "answer"], Ret tt) /\
  dispatch (with_replies (inl (CapabilityError "draft")) (inr true) (inr []) world_send)
    cfg_draft msg_a (Some "answer") []
    = ([ECreateDraft (addr "a@x.com") "RE: Meeting?" "answer"],
       Raise (CapabilityError "draft")).
Proof.
  pose proof (dispatch_ignores_send_flag
                (with_replies (inr "d") (inr false) (inr []) world_send)
                cfg_send msg_a "answer" []) as [Hs _].
  pose proof (dispatch_ignores_send_flag
                (with_replies (inl (CapabilityError "draft")) (inr true)
                   (inr []) world_send)
                cfg_draft msg_a "answer" []) as [_ Hd].
  split.
  - apply (Hs false); vm_compute; reflexivity.
  - apply (Hd (CapabilityError "draft")); vm_compute; reflexivity.
Defined.

(** ** Start-up *)

(** X12.  When the email profile cannot be initialised, the [finally] block reads
    a variable that was never assigned: the run ends with
    [UnboundLocalError] instead of the original exception, and neither
    [disconnect] nor [close] is called.  When only the knowledge base
    manager cannot be initialised, the connection is disconnected and the
    run then ends with [UnboundLocalError] for [kbm]. *)
Theorem init_failure_masked (W : World) (fuel : nat) (tr : trace) (e : exn) :
  (w_initialize_email_profile W (tr ++ [EInitializeEmailProfile]) = inl e ->
   email_assistant_workflow W fuel tr =
   (tr ++ [EInitializeEmailProfile],
    Some (Raise (UnboundLocalError "email_profile")))) /\
  (w_initialize_email_profile W (tr ++ [EInitializeEmailProfile]) = inr tt ->
   w_initialize_knowledge_base_manager W
     ((tr ++ [EInitializeEmailProfile]) ++ [EInitializeKnowledgeBaseManager])
     = inl e ->
   w_disconnect W
     (((tr ++ [EInitializeEmailProfile]) ++ [EInitializeKnowledgeBaseManager])
      ++ [EDisconnect]) = inr tt ->
   email_assistant_workflow W fuel tr =
   (tr ++ [EInitializeEmailProfile; EInitializeKnowledgeBaseManager; EDisconnect],
    Some (Raise (UnboundLocalError "kbm")))).
Proof.
  split.
  - intros H1.
    unfold email_assistant_workflow, initialize_email_profile, call.
    by rewrite H1.
  - intros H1 H2 Hd.
    unfold email_assistant_workflow, initialize_email_profile,
      initialize_knowledge_base_manager, call.
    rewrite H1, H2.
    unfold finish, try_finally, lift, cleanup, bind, call, raise.
    rewrite Hd. by rewrite <- !app_assoc.
Qed.

Lemma init_failure_masked_witness :
  email_assistant_workflow
    (with_init (inl (CapabilityError "login")) (inr tt) world_send) 3 []
    = ([EInitializeEmailProfile],
       Some (Raise (UnboundLocalError "email_profile"))) /\
  email_assistant_workflow
    (with_init (inr tt) (inl (CapabilityError "weaviate")) world_send) 3 []
    = ([EInitializeEmailProfile; EInitializeKnowledgeBaseManager; EDisconnect],
       Some (Raise (UnboundLocalError "kbm"))).
Proof.
  pose proof (init_failure_masked
                (with_init (inl (CapabilityError "login")) (inr tt) world_send)
                3 [] (CapabilityError "login")) as [Hp _].
  pose proof (init_failure_masked
                (with_init (inr tt) (inl (CapabilityError "weaviate")) world_send)
                3 [] (CapabilityError "weaviate")) as [_ Hk].
  split; [apply Hp | apply Hk]; reflexivity.
Defined.

(** X10.  When the collection ["Email"] exists, the start-up only lists the
    collections and loads the configuration: nothing is fetched or indexed,
    and the lists of the configuration are not read. *)
Theorem bootstrap_existing_collection (W : World) (tr : trace)
    (collections : list string) (cfg : Config) :
  w_list_collections W (tr ++ [EListCollections]) = inr collections ->
  w_load_config W
    ((tr ++ [EListCollections]) ++ [ELoadConfig "email_assistant_config.json"])
    = inr cfg ->
  "Email" ∈ collections ->
  bootstrap W tr =
  (tr ++ [EListCollections; ELoadConfig "email_assistant_config.json"], Ret cfg).
Proof.
  intros Hl Hc Hin.
  unfold bootstrap, load_email_assistant_config, bind, call.
  rewrite Hl, Hc.
  apply py_in_elem_of in Hin. rewrite Hin. cbn [negb].
  unfold ret. by rewrite <- app_assoc.
Qed.

Lemma bootstrap_existing_collection_witness :
  bootstrap world_send [] =
  ([EListCollections; ELoadConfig "email_assistant_config.json"], Ret cfg_send).
Proof.
  apply (bootstrap_existing_collection world_send [] ["Email"] cfg_send);
    [reflexivity | reflexivity | set_solver].
Defined.

(** A successful run of [email_database_creation]: connect, fetch, index the
    identifiers of the messages the lists let through, disconnect. *)
Lemma email_database_creation_run (W : World) (wl bl : option (list string))
    (coll : string) (M : list EmailMessageModel) (tr : trace) :
  (wl = None \/ bl = None) ->
  (forall t, w_connect W t = inr tt) ->
  (forall t, w_fetch_messages W t = inr M) ->
  (forall t, exists ids, w_process_new_emails W t = inr ids) ->
  (forall t, w_disconnect W t = inr tt) ->
  email_database_creation W wl bl coll tr =
  (tr ++ [EConnect; EFetchMessages;
          EProcessNewEmails
            (map message_id
               match wl, bl with
               | Some l, _ => filter (fun msg => email (sender msg) ∈ l) M
               | None, Some l => filter (fun msg => email (sender msg) ∉ l) M
               | None, None => M
               end) coll;
          EDisconnect],
   Ret tt).
Proof.
  intros Hone Hc Hf Hp Hd.
  unfold email_database_creation, bind, call, ret.
  destruct wl as [l|], bl as [l'|]; [destruct Hone; discriminate| | |].
  all: rewrite Hc, Hf.
  all: rewrite ?filter_py_in, ?filter_not_py_in.
  all: match goal with
       | |- context [w_process_new_emails ?w ?t] =>
           destruct (Hp t) as [ids ->]
       end.
  all: rewrite Hd; by rewrite <- !app_assoc.
Qed.

(** X11.  When the collection ["Email"] does not exist yet, the start-up indexes
    the mailbox filtered by the whitelist alone, then the two documents.
    The blacklist of the configuration plays no part: with a blacklist only,
    the messages of blacklisted senders are indexed like all others. *)
Theorem bootstrap_new_collection (W : World) (tr : trace)
    (collections : list string) (cfg : Config) (wl : option (list string))
    (M : list EmailMessageModel) :
  (forall t, w_list_collections W t = inr collections) ->
  (forall t, w_load_config W t = inr cfg) ->
  "Email" ∉ collections ->
  cfg_whitelist cfg = Some wl ->
  (forall t, w_connect W t = inr tt) ->
  (forall t, w_fetch_messages W t = inr M) ->
  (forall t, exists ids, w_process_new_emails W t = inr ids) ->
  (forall t, w_disconnect W t = inr tt) ->
  (forall t, w_process_document W t = inr tt) ->
  bootstrap W tr =
  (tr ++ [EListCollections; ELoadConfig "email_assistant_config.json";
          EConnect; EFetchMessages;
          EProcessNewEmails
            (map message_id
               match wl with
               | Some l => filter (fun msg => email (sender msg) ∈ l) M
               | None => M
               end) "Email";
          EDisconnect;
          EProcessDocument "latex_documents/vahid.tex" "Email";
          EProcessDocument "latex_documents/mohamed.tex" "Email"],
   Ret cfg).
Proof.
  intros Hl Hc Hnin Hw Hco Hf Hp Hd Hdoc.
  unfold bootstrap, load_email_assistant_config, bind at 1 2, call at 1 2.
  rewrite Hl, Hc.
  destruct (py_in "Email" collections) eqn:Hin;
    [apply py_in_elem_of in Hin; contradiction|].
  cbn [negb]. unfold bind at 1, getitem. rewrite Hw. unfold ret at 1.
  unfold bind at 1.
  rewrite (email_database_creation_run W wl None "Email" M _
             (or_intror eq_refl) Hco Hf Hp Hd).
  unfold bind, call, ret. rewrite !Hdoc.
  rewrite <- !app_assoc. cbn [app]. by destruct wl.
Qed.

Lemma bootstrap_new_collection_witness :
  bootstrap world_fresh [] =
  ([EListCollections; ELoadConfig "email_assistant_config.json";
    EConnect; EFetchMessages;
    EProcessNewEmails (map message_id [msg_a; msg_b]) "Email";
    EDisconnect;
    EProcessDocument "latex_documents/vahid.tex" "Email";
    EProcessDocument "latex_documents/mohamed.tex" "Email"],
   Ret cfg_blacklist_only).
Proof.
  apply (bootstrap_new_collection world_fresh [] ["Documents"]
           cfg_blacklist_only None [msg_a; msg_b]);
    try (intros t; reflexivity); try reflexivity.
  - intros Hin. apply list_elem_of_In in Hin. cbn [In] in Hin.
    intuition discriminate.
  - intros t. by exists ["c1"; "c2"].
Defined.

(** X9.  [email_database_creation] disconnects on success only: when fetching or
    indexing raises after the connection was made, the exception is raised
    again and [disconnect] is not called. *)
Theorem email_database_creation_leaves_connection_open (W : World)
    (wl bl : option (list string)) (coll : string) (tr : trace) (e : exn) :
  (wl = None \/ bl = None) ->
  w_connect W (tr ++ [EConnect]) = inr tt ->
  (w_fetch_messages W ((tr ++ [EConnect]) ++ [EFetchMessages]) = inl e ->
   email_database_creation W wl bl coll tr
     = (tr ++ [EConnect; EFetchMessages], Raise e)) /\
  (forall M,
     w_fetch_messages W ((tr ++ [EConnect]) ++ [EFetchMessages]) = inr M ->
     (forall t, w_process_new_emails W t = inl e) ->
     snd (email_database_creation W wl bl coll tr) = Raise e /\
     exists ids,
       fst (email_database_creation W wl bl coll tr)
         = tr ++ [EConnect; EFetchMessages; EProcessNewEmails ids coll]).
Proof.
  intros Hone Hc. split.
  - intros Hf. unfold email_database_creation, bind, call.
    destruct wl, bl; [destruct Hone; discriminate| | |];
      rewrite Hc, Hf; by rewrite <- app_assoc.
  - intros M Hf Hp. unfold email_database_creation, bind, call.
    destruct wl, bl; [destruct Hone; discriminate| | |];
      rewrite Hc, Hf, Hp; cbn [fst snd];
      (split; [reflexivity | eexists; by rewrite <- !app_assoc]).
Qed.

Lemma email_database_creation_leaves_connection_open_witness :
  email_database_creation world_fetch_fails (Some ["a@x.com"]) None "Email" []
    = ([EConnect; EFetchMessages], Raise (CapabilityError "imap")) /\
  snd (email_database_creation world_index_fails (Some ["a@x.com"]) None "Email" [])
    = Raise (CapabilityError "weaviate").
Proof.
  pose proof (email_database_creation_leaves_connection_open world_fetch_fails
                (Some ["a@x.com"]) None "Email" [] (CapabilityError "imap")
                (or_intror eq_refl) eq_refl) as [Hf _].
  pose proof (email_database_creation_leaves_connection_open world_index_fails
                (Some ["a@x.com"]) None "Email" [] (CapabilityError "weaviate")
                (or_intror eq_refl) eq_refl) as [_ Hi].
  split; [apply Hf; reflexivity|].
  apply (Hi [msg_a; msg_b]); [reflexivity | intros t; reflexivity].
Defined.


(** ** What a pass does with the messages *)

Lemma emits_weaken {A} (P Q : event -> Prop) (m : M A) :
  (forall e, P e -> Q e) -> emits P m -> emits Q m.
Proof.
  intros HPQ Hm tr. destruct (Hm tr) as (evs & Htr & Hevs).
  exists evs. split; [exact Htr|]. by eapply Forall_impl.
Qed.

Lemma emits_for_each_Forall {A} (P : event -> Prop) (f : A -> M unit)
    (l : list A) :
  Forall (fun x => emits P (f x)) l -> emits P (for_each f l).
Proof.
  induction 1 as [|x l Hx _ IH]; cbn [for_each].
  - apply emits_ret.
  - apply emits_bind; [exact Hx | intros _; exact IH].
Qed.

(** The calls made for a message are about its own sender. *)
Lemma process_message_addressee (W : World) (cfg : Config)
    (m : EmailMessageModel) :
  emits (fun e => forall a, addressee e = Some a -> a = email (sender m))
    (process_message W cfg m).
Proof.
  unfold process_message, get_answer_for_email, dispatch,
    draft_answer_for_email, send_answer_to_email.
  apply emits_bind.
  - apply emits_bind; [apply emits_lift | intros p].
    apply emits_bind; [apply emits_call; cbn; congruence | intros q].
    apply emits_bind; [apply emits_call; cbn; congruence | intros r].
    apply emits_lift.
  - intros [a|]; [|apply emits_ret].
    apply emits_bind; [apply emits_lift | intros d].
    destruct d; (apply emits_bind; [|intros _; apply emits_ret]);
      apply emits_call; cbn; congruence.
Qed.

Lemma filtered_in_scope (wl bl : option (list string))
    (M : list EmailMessageModel) :
  Forall (fun msg => in_scope wl bl (email (sender msg)))
    match wl, bl with
    | None, None => M
    | Some l, _ =>
        List.filter (fun msg => py_in (email (sender msg)) l) M
    | None, Some l =>
        List.filter (fun msg => negb (py_in (email (sender msg)) l)) M
    end.
Proof.
  destruct wl as [l|], bl as [l'|]; cbn [in_scope].
  1,2: apply Forall_forall; intros x Hx; apply list_elem_of_In in Hx;
       apply filter_In in Hx as [_ Hx]; by apply py_in_elem_of.
  - apply Forall_forall. intros x Hx. apply list_elem_of_In in Hx.
    apply filter_In in Hx as [_ Hx]. apply negb_true_iff in Hx.
    intros Hin. apply py_in_elem_of in Hin. congruence.
  - by apply Forall_forall.
Qed.

Lemma check_new_emails_in_scope (W : World) (coll : string) (limit : Z)
    (wl bl : option (list string)) (tr : trace) :
  (exists evs,
     fst (check_new_emails W coll limit wl bl tr) = tr ++ evs /\
     Forall (fun e => addressee e = None) evs) /\
  (forall l,
     snd (check_new_emails W coll limit wl bl tr) = Ret l ->
     Forall (fun msg => in_scope wl bl (email (sender msg))) l).
Proof.
  pose proof (filtered_in_scope wl bl) as Hsc.
  unfold check_new_emails, bind, call.
  destruct wl as [l1|], bl as [l2|].
  1: { split; [exists []; split; [by rewrite app_nil_r | constructor]|].
       intros l. discriminate. }
  all: destruct (w_check_new_emails W (tr ++ [ECheckNewEmails limit true]))
         as [e|M]; cbn [fst snd].
  all: rewrite ?return_filtered; cbn [fst snd ret].
  all: split;
    [ exists [ECheckNewEmails limit true];
      split; [reflexivity | by repeat constructor]
    | intros l Hl; try discriminate ].
  all: inversion Hl; subst l; apply Hsc.
Qed.

Lemma process_message_calls (W : World) (cfg : Config)
    (m : EmailMessageModel) (tr : trace) :
  exists evs,
    fst (process_message W cfg m tr) = tr ++ evs /\ message_calls m evs.
Proof.
  unfold process_message, get_answer_for_email, dispatch,
    draft_answer_for_email, send_answer_to_email, bind, lift, call, ret.
  destruct (resolve_answer_pattern cfg m) as [p|e|].
  2,3: exists []; split; [by rewrite app_nil_r | constructor].
  destruct (w_clean_email_body W (tr ++ [ECleanEmailBody m])) as [e|q].
  { exists [ECleanEmailBody m]. split; [reflexivity | constructor]. }
  destruct (w_search W ((tr ++ [ECleanEmailBody m])
                        ++ [ESearch q "Email" HYBRID 3])) as [e|results].
  { exists [ECleanEmailBody m; ESearch q "Email" HYBRID 3].
    split; [by rewrite <- app_assoc | constructor]. }
  destruct (answer_from_results p m results) as [[a|]|e|].
  2-4: exists [ECleanEmailBody m; ESearch q "Email" HYBRID 3];
       (split; [by rewrite <- app_assoc | constructor]).
  destruct (wants_draft cfg m) as [[|]|e|].
  3,4: exists [ECleanEmailBody m; ESearch q "Email" HYBRID 3];
       (split; [by rewrite <- app_assoc | constructor]).
  - exists [ECleanEmailBody m; ESearch q "Email" HYBRID 3;
            ECreateDraft (sender m) ("RE: " +:+ subject m) a].
    split; [|constructor].
    destruct (w_create_draft W _); cbn [fst]; by rewrite <- !app_assoc.
  - exists [ECleanEmailBody m; ESearch q "Email" HYBRID 3;
            ESendMessageDirect (sender m) ("RE: " +:+ subject m) a].
    split; [|constructor].
    destruct (w_send_message_direct W _); cbn [fst]; by rewrite <- !app_assoc.
Qed.

Lemma for_each_calls (W : World) (cfg : Config)
    (l : list EmailMessageModel) (tr : trace) :
  exists ms segs,
    fst (for_each (process_message W cfg) l tr) = tr ++ concat segs /\
    Forall2 message_calls ms segs /\
    ms `prefix_of` l.
Proof.
  revert tr. induction l as [|x l IH]; intros tr; cbn [for_each].
  - exists [], []. cbn. rewrite app_nil_r.
    split; [reflexivity|]. split; [constructor | by exists []].
  - unfold bind.
    destruct (process_message_calls W cfg x tr) as (e1 & Htr1 & Hc1).
    destruct (process_message W cfg x tr) as [tr1 o].
    cbn [fst] in Htr1. subst tr1.
    destruct o as [[]|e|]; cbn [fst].
    2,3: exists [x], [e1]; cbn; rewrite app_nil_r;
         (split; [reflexivity|]);
         (split; [by repeat constructor | by exists l]).
    destruct (IH (tr ++ e1)) as (ms & segs & Htr & Hsegs & Hpre).
    exists (x :: ms), (e1 :: segs). cbn [concat].
    split; [by rewrite Htr, app_assoc|].
    split; [by constructor | by apply prefix_cons].
Qed.

Lemma check_new_emails_sublist (W : World) (coll : string) (limit : Z)
    (wl bl : option (list string)) (tr : trace) (l : list EmailMessageModel) :
  snd (check_new_emails W coll limit wl bl tr) = Ret l ->
  fst (check_new_emails W coll limit wl bl tr) = tr ++ [ECheckNewEmails limit true] /\
  exists M,
    w_check_new_emails W (tr ++ [ECheckNewEmails limit true]) = inr M /\
    sublist l M.
Proof.
  unfold check_new_emails, bind, call.
  destruct wl as [l1|], bl as [l2|]; [discriminate| | |].
  all: destruct (w_check_new_emails W (tr ++ [ECheckNewEmails limit true]))
         as [e|M]; [discriminate|].
  all: rewrite ?return_filtered; cbn [fst snd ret].
  all: intros [= <-]; split; [reflexivity|]; exists M; split; [reflexivity|].
  all: first [apply filter_sublist | reflexivity].
Qed.

Lemma check_new_emails_head (W : World) (coll : string) (limit : Z)
    (wl bl : option (list string)) (tr : trace) :
  exists hd,
    fst (check_new_emails W coll limit wl bl tr) = tr ++ hd /\
    (hd = [] \/ hd = [ECheckNewEmails limit true]).
Proof.
  unfold check_new_emails, bind, call.
  destruct wl as [l1|], bl as [l2|].
  1: exists []; split; [by rewrite app_nil_r | by left].
  all: exists [ECheckNewEmails limit true]; split; [|by right].
  all: destruct (w_check_new_emails W (tr ++ [ECheckNewEmails limit true]));
    [reflexivity|].
  all: by rewrite ?return_filtered.
Qed.

(** X14.  A message the lists filter out causes no call at all.  After the
    fetch, the calls of a pass are, for some of the fetched messages that
    the lists let through, taken in order, the calls of that message one
    after the other: the normalisation of its body, then the search for it,
    then one draft or send to its sender.  Every normalisation, search,
    draft and send of the pass therefore belongs to a message in scope. *)
Theorem filtered_senders_cause_no_calls (W : World) (cfg : Config)
    (wl bl : option (list string)) (tr : trace) :
  cfg_whitelist cfg = Some wl ->
  cfg_blacklist cfg = Some bl ->
  exists hd ms segs,
    fst (fetch_and_process W cfg tr) = tr ++ hd ++ concat segs /\
    (hd = [] \/ hd = [ECheckNewEmails 5 true]) /\
    Forall2 message_calls ms segs /\
    Forall (fun m => in_scope wl bl (email (sender m))) ms /\
    (forall M,
       w_check_new_emails W (tr ++ [ECheckNewEmails 5 true]) = inr M ->
       sublist ms M).
Proof.
  intros Hw Hb.
  unfold fetch_and_process, bind at 1 2, getitem. rewrite Hw, Hb.
  unfold ret at 1 2. unfold bind.
  destruct (check_new_emails_head W "Email" 5 wl bl tr) as (hd & Hhd & Hcase).
  pose proof (proj2 (check_new_emails_in_scope W "Email" 5 wl bl tr)) as Hres.
  pose proof (check_new_emails_sublist W "Email" 5 wl bl tr) as Hsub.
  destruct (check_new_emails W "Email" 5 wl bl tr) as [tr0 o].
  cbn [fst snd] in *. subst tr0.
  destruct o as [l|e|].
  - specialize (Hres l eq_refl).
    destruct (Hsub l eq_refl) as (Htr & M & HM & HlM).
    apply app_inv_head in Htr. subst hd.
    destruct (for_each_calls W cfg l (tr ++ [ECheckNewEmails 5 true]))
      as (ms & segs & Hfe & Hsegs & [rest Hpre]).
    exists [ECheckNewEmails 5 true], ms, segs.
    split; [by rewrite Hfe, <- app_assoc|].
    split; [by right|]. split; [exact Hsegs|].
    subst l. apply Forall_app in Hres as [Hms _].
    split; [exact Hms|].
    intros M' HM'. rewrite HM in HM'. injection HM' as <-.
    etrans; [|exact HlM]. by apply sublist_inserts_r.
  - exists hd, [], []. cbn [concat]. rewrite app_nil_r.
    split; [reflexivity|]. split; [exact Hcase|].
    split; [constructor|]. split; [constructor|].
    intros M HM. apply sublist_nil_l.
  - exists hd, [], []. cbn [concat]. rewrite app_nil_r.
    split; [reflexivity|]. split; [exact Hcase|].
    split; [constructor|]. split; [constructor|].
    intros M HM. apply sublist_nil_l.
Qed.

Lemma filtered_senders_cause_no_calls_witness :
  exists hd ms segs,
    fst (fetch_and_process world_two_senders cfg_send []) = [] ++ hd ++ concat segs /\
    (hd = [] \/ hd = [ECheckNewEmails 5 true]) /\
    Forall2 message_calls ms segs /\
    Forall (fun m => in_scope (Some ["a@x.com"]) None (email (sender m))) ms /\
    (forall M,
       w_check_new_emails world_two_senders ([] ++ [ECheckNewEmails 5 true])
         = inr M ->
       sublist ms M).
Proof.
  apply (filtered_senders_cause_no_calls world_two_senders cfg_send
           (Some ["a@x.com"]) None []); reflexivity.
Defined.

(** The pass over a mailbox with a sender out of scope between two messages
    in scope: nothing is normalised, searched or sent for the former. *)
Example filtered_sender_skipped :
  fst (fetch_and_process world_two_senders cfg_send []) =
  [ECheckNewEmails 5 true;
   ECleanEmailBody msg_a; ESearch "When is the meeting?" "Email" HYBRID 3;
   ESendMessageDirect (addr "a@x.com") "RE: Meeting?"
     ("Hi a@x.com, info: Meeting is at 3pm" +:+ newline);
   ECleanEmailBody msg_a; ESearch "When is the meeting?" "Email" HYBRID 3;
   ESendMessageDirect (addr "a@x.com") "RE: Meeting?"
     ("Hi a@x.com, info: Meeting is at 3pm" +:+ newline)].
Proof. vm_compute. reflexivity. Qed.

Lemma process_message_one_reply (W : World) (cfg : Config)
    (m : EmailMessageModel) (tr : trace) :
  exists evs,
    fst (process_message W cfg m tr) = tr ++ evs /\
    (count_calls is_reply_call evs <= 1)%nat.
Proof.
  unfold process_message, bind.
  destruct (get_answer_for_email_calls W cfg m "Email" tr)
    as (evs0 & Htr0 & Hevs0).
  apply count_calls_none in Hevs0.
  destruct (get_answer_for_email W cfg m "Email" tr) as [tr0 o].
  cbn [fst] in Htr0. subst tr0.
  destruct o as [[a|]|e|]; cbn [fst].
  2-4: exists evs0; split; [reflexivity | lia].
  unfold dispatch, bind, lift, draft_answer_for_email, send_answer_to_email,
    call, ret.
  destruct (wants_draft cfg m) as [[|]|e|]; cbn [fst].
  3,4: exists evs0; split; [reflexivity | lia].
  - exists (evs0 ++ [ECreateDraft (sender m) ("RE: " +:+ subject m) a]).
    split; [by destruct (w_create_draft W _); rewrite app_assoc|].
    rewrite count_calls_app, Hevs0. cbn. lia.
  - exists (evs0 ++ [ESendMessageDirect (sender m) ("RE: " +:+ subject m) a]).
    split; [by destruct (w_send_message_direct W _); rewrite app_assoc|].
    rewrite count_calls_app, Hevs0. cbn. lia.
Qed.

Lemma for_each_replies (W : World) (cfg : Config)
    (l : list EmailMessageModel) (tr : trace) :
  exists evs,
    fst (for_each (process_message W cfg) l tr) = tr ++ evs /\
    (count_calls is_reply_call evs <= length l)%nat.
Proof.
  revert tr. induction l as [|x l IH]; intros tr; cbn [for_each].
  - exists []. split; [by rewrite app_nil_r | cbn; lia].
  - unfold bind.
    destruct (process_message_one_reply W cfg x tr) as (e1 & Htr1 & Hc1).
    destruct (process_message W cfg x tr) as [tr1 o].
    cbn [fst] in Htr1. subst tr1.
    destruct o as [[]|e|]; cbn [fst length].
    2,3: exists e1; split; [reflexivity | lia].
    destruct (IH (tr ++ e1)) as (e2 & Htr2 & Hc2).
    exists (e1 ++ e2). split; [by rewrite Htr2, app_assoc|].
    rewrite count_calls_app. lia.
Qed.

Lemma length_filter_le {A} (f : A -> bool) (l : list A) :
  (length (List.filter f l) <= length l)%nat.
Proof.
  induction l as [|x l IH]; cbn; [lia|]. destruct (f x); cbn; lia.
Qed.

Lemma check_new_emails_length (W : World) (coll : string) (limit : Z)
    (wl bl : option (list string)) (tr : trace) :
  (exists evs,
     fst (check_new_emails W coll limit wl bl tr) = tr ++ evs /\
     count_calls is_reply_call evs = 0%nat) /\
  (forall l,
     snd (check_new_emails W coll limit wl bl tr) = Ret l ->
     exists M,
       w_check_new_emails W (tr ++ [ECheckNewEmails limit true]) = inr M /\
       (length l <= length M)%nat).
Proof.
  unfold check_new_emails, bind, call.
  destruct wl as [l1|], bl as [l2|].
  1: { split; [exists []; split; [by rewrite app_nil_r | reflexivity]|].
       intros l. discriminate. }
  all: destruct (w_check_new_emails W (tr ++ [ECheckNewEmails limit true]))
         as [e|M]; cbn [fst snd].
  all: rewrite ?return_filtered; cbn [fst snd ret].
  all: split;
    [ exists [ECheckNewEmails limit true]; split; reflexivity
    | intros l Hl; try discriminate ].
  all: inversion Hl; subst l; exists M; split; [reflexivity|].
  all: first [apply length_filter_le | lia].
Qed.

(** X15.  A pass makes at most one draft or send per fetched message: never both
    for one message, and none for a message that was not fetched in this
    pass. *)
Theorem replies_bounded_by_batch (W : World) (cfg : Config) (tr : trace) :
  exists evs,
    fst (fetch_and_process W cfg tr) = tr ++ evs /\
    (count_calls is_reply_call evs <=
     match w_check_new_emails W (tr ++ [ECheckNewEmails 5 true]) with
     | inr M => length M
     | inl _ => 0
     end)%nat.
Proof.
  unfold fetch_and_process, bind at 1 2, getitem.
  destruct (cfg_whitelist cfg) as [wl|];
    [|exists []; split; [by rewrite app_nil_r | cbn; lia]].
  destruct (cfg_blacklist cfg) as [bl|];
    [|exists []; split; [by rewrite app_nil_r | cbn; lia]].
  unfold ret at 1 2. unfold bind.
  destruct (check_new_emails_length W "Email" 5 wl bl tr)
    as [(evs0 & Htr0 & Hc0) Hres].
  destruct (check_new_emails W "Email" 5 wl bl tr) as [tr0 o].
  cbn [fst snd] in *. subst tr0.
  destruct o as [l|e|]; [|exists evs0; split; [reflexivity | lia] ..].
  destruct (Hres l eq_refl) as (M & HM & Hlen). rewrite HM.
  destruct (for_each_replies W cfg l (tr ++ evs0)) as (evs & Htr & Hc).
  exists (evs0 ++ evs). split; [by rewrite Htr, app_assoc|].
  rewrite count_calls_app. lia.
Qed.

Lemma replies_bounded_by_batch_example :
  count_calls is_reply_call (fst (fetch_and_process world_two_senders cfg_send []))
  = 2%nat.
Proof. vm_compute. reflexivity. Qed.

(** ** Passes without memory *)

Lemma replays_ret {A} (a : A) : replays (ret a).
Proof. exists [], (Ret a). intros t. unfold ret. by rewrite app_nil_r. Qed.

Lemma replays_raise {A} (e : exn) : replays (@raise A e).
Proof. exists [], (Raise e). intros t. unfold raise. by rewrite app_nil_r. Qed.

Lemma replays_lift {A} (o : outcome A) : replays (lift o).
Proof. exists [], o. intros t. unfold lift. by rewrite app_nil_r. Qed.

Lemma replays_getitem {A} (key : string) (o : option A) : replays (getitem key o).
Proof. destruct o; [apply replays_ret | apply replays_raise]. Qed.

Lemma replays_call {A} (e : event) (respond : trace -> exn + A) :
  (forall t t', last t = last t' -> respond t = respond t') ->
  replays (call e respond).
Proof.
  intros Hr.
  exists [e], (match respond [e] with inl x => Raise x | inr a => Ret a end).
  intros t. unfold call.
  rewrite (Hr (t ++ [e]) [e]); [reflexivity|].
  by rewrite last_snoc.
Qed.

Lemma replays_bind {A B} (m : M A) (f : A -> M B) :
  replays m -> (forall a, replays (f a)) -> replays (bind m f).
Proof.
  intros (evs & o & Hm) Hf. unfold bind.
  destruct o as [a|e|].
  - destruct (Hf a) as (evs' & o' & Hfa).
    exists (evs ++ evs'), o'. intros t. by rewrite Hm, Hfa, app_assoc.
  - exists evs, (Raise e). intros t. by rewrite Hm.
  - exists evs, Unmodelled. intros t. by rewrite Hm.
Qed.

Lemma replays_try_finally {A} (body : M A) (fin : M unit) :
  replays body -> replays fin -> replays (try_finally body fin).
Proof.
  intros (evs & o & Hb) (evs' & o' & Hf). unfold try_finally.
  exists (evs ++ evs'),
    (match o' with Ret _ => o | Raise e => Raise e | Unmodelled => Unmodelled end).
  intros t. rewrite Hb, Hf, app_assoc. by destruct o' as [[]|e|].
Qed.

Lemma replays_for_each {A} (f : A -> M unit) (l : list A) :
  (forall x, replays (f x)) -> replays (for_each f l).
Proof.
  intros Hf. induction l as [|x l IH]; cbn [for_each].
  - apply replays_ret.
  - apply replays_bind; [apply Hf | intros _; apply IH].
Qed.

Lemma replays_if {A} (c : bool) (m1 m2 : M A) :
  replays m1 -> replays m2 -> replays (if c then m1 else m2).
Proof. by destruct c. Qed.

Lemma poll_iteration_replays (W : World) (cfg : Config) :
  history_free W -> replays (poll_iteration W cfg).
Proof.
  intros HW.
  unfold poll_iteration, fetch_and_process, check_new_emails, process_message,
    get_answer_for_email, dispatch, draft_answer_for_email,
    send_answer_to_email, wait_with_quit.
  repeat first
    [ apply replays_ret | apply replays_raise | apply replays_lift
    | apply replays_getitem
    | apply replays_call; intros t t' Hl; first [reflexivity | by apply HW | by f_equal; apply HW]
    | apply replays_bind; [|intros ?]
    | apply replays_try_finally
    | apply replays_for_each; intros ?
    | apply replays_if
    | match goal with
      | |- replays (match ?x with _ => _ end) => destruct x
      end ].
Qed.

(** X17.  When the answers of the mailbox, the knowledge base and the terminal do
    not depend on what the assistant did before, every pass makes the same
    calls: nothing records which messages were answered, so a message that
    stays unread is answered again in each pass. *)
Theorem pass_repeats_itself (W : World) (cfg : Config) :
  history_free W ->
  exists evs o,
    (forall t, poll_iteration W cfg t = (t ++ evs, o)) /\
    (o = Ret false ->
     forall n t, poll_loop W cfg n t = (t ++ concat (replicate n evs), None)).
Proof.
  intros HW. destruct (poll_iteration_replays W cfg HW) as (evs & o & Hit).
  exists evs, o. split; [exact Hit|].
  intros -> n. induction n as [|n IH]; intros t; cbn [poll_loop replicate concat].
  - by rewrite app_nil_r.
  - rewrite Hit, IH. by rewrite app_assoc.
Qed.

Lemma world_unchanged_history_free : history_free world_unchanged.
Proof.
  intros t t' Hl. cbn. rewrite Hl. by repeat split.
Qed.

Lemma pass_repeats_itself_witness :
  exists evs o,
    (forall t, poll_iteration world_unchanged cfg_send t = (t ++ evs, o)) /\
    (o = Ret false ->
     forall n t,
       poll_loop world_unchanged cfg_send n t
       = (t ++ concat (replicate n evs), None)).
Proof.
  apply (pass_repeats_itself world_unchanged cfg_send).
  intros t t' Hl. cbn. rewrite Hl. by repeat split.
Defined.

(** Two passes over an unchanged mailbox send the same answer twice. *)
Example unchanged_mailbox_answered_twice :
  poll_loop world_unchanged cfg_send 2 [] =
  ([ECheckNewEmails 5 true; ECleanEmailBody msg_a;
    ESearch "When is the meeting?" "Email" HYBRID 3;
    ESendMessageDirect (addr "a@x.com") "RE: Meeting?"
      ("Hi a@x.com, info: Meeting is at 3pm" +:+ newline);
    EIsatty; ESetCbreak; EReadKeys 120; ERestoreTerminal;
    ECheckNewEmails 5 true; ECleanEmailBody msg_a;
    ESearch "When is the meeting?" "Email" HYBRID 3;
    ESendMessageDirect (addr "a@x.com") "RE: Meeting?"
      ("Hi a@x.com, info: Meeting is at 3pm" +:+ newline);
    EIsatty; ESetCbreak; EReadKeys 120; ERestoreTerminal],
   None).
Proof. vm_compute. reflexivity. Qed.

(** ** More on patterns *)

(** X21.  A pattern without braces is the answer, whatever the sender and the
    context: what was retrieved is then not part of the reply. *)
Theorem pattern_without_placeholders (lit s ctx : string) :
  brace_free lit = true ->
  render_answer lit s ctx = Ret lit.
Proof.
  intros Hbf. unfold render_answer, PyFormat.format.
  rewrite <- (append_empty_r lit) at 1.
  rewrite (format_from_literal _ lit "" Hbf). cbn.
  by rewrite append_empty_r.
Qed.

Lemma pattern_without_placeholders_witness :
  render_answer "Thank you for your message." "a@x.com" "Meeting is at 3pm"
  = Ret "Thank you for your message.".
Proof.
  apply (pattern_without_placeholders "Thank you for your message."
           "a@x.com" "Meeting is at 3pm").
  reflexivity.
Defined.

Lemma plain_name_cons (c : ascii) (r : string) :
  plain_name (String c r) = true ->
  Ascii.eqb c "{" = false /\ Ascii.eqb c "}" = false /\
  Ascii.eqb c "[" = false /\ Ascii.eqb c ":" = false /\
  Ascii.eqb c "!" = false /\ Ascii.eqb c "." = false /\ plain_name r = true.
Proof.
  cbn [plain_name]. rewrite !andb_true_iff, !negb_true_iff. tauto.
Qed.

Lemma format_from_field (kw : PyFormat.kwargs) (name acc rest : string) :
  plain_name name = true ->
  PyFormat.format_from kw (Some acc) (name +:+ "}" +:+ rest) =
  match PyFormat.render_field kw (acc +:+ name) with
  | Ret v => PyFormat.app_out v (PyFormat.format_from kw None rest)
  | o => o
  end.
Proof.
  revert acc. induction name as [|c name IH]; intros acc Hp.
  - rewrite append_empty_l, append_empty_r. reflexivity.
  - apply plain_name_cons in Hp as (H1 & H2 & H3 & H4 & H5 & _ & Hp).
    rewrite append_cons. cbn [PyFormat.format_from].
    rewrite H1, H2, H3, H4, H5. cbn [orb].
    rewrite (IH _ Hp). rewrite append_assoc3. reflexivity.
Qed.

Lemma format_from_open (kw : PyFormat.kwargs) (name rest : string) :
  plain_name name = true ->
  PyFormat.format_from kw None ("{" +:+ name +:+ "}" +:+ rest) =
  PyFormat.format_from kw (Some "") (name +:+ "}" +:+ rest).
Proof.
  intros Hp. destruct name as [|c name]; [reflexivity|].
  apply plain_name_cons in Hp as (H1 & _).
  rewrite !append_cons, append_empty_l. cbn [PyFormat.format_from].
  change (Ascii.eqb "{" "{") with true. cbv iota. by rewrite H1.
Qed.

Lemma split_dot_plain (name : string) :
  plain_name name = true -> PyFormat.split_dot name = (name, None).
Proof.
  induction name as [|c name IH]; intros Hp; [reflexivity|].
  apply plain_name_cons in Hp as (_ & _ & _ & _ & _ & Hd & Hp).
  cbn [PyFormat.split_dot]. rewrite Hd. by rewrite (IH Hp).
Qed.

(** X22.  The only placeholders a pattern can use are [{sender}] and
    [{context_results}]: a first placeholder with any other name (of ASCII
    characters, not a number) raises [KeyError] with that name, and an empty
    or numbered placeholder raises [IndexError] with the message of CPython
    3.8 and later, which names the index, since the call passes no
    positional argument. *)
Theorem unknown_placeholder_raises (lit name rest s ctx : string) :
  brace_free lit = true ->
  plain_name name = true ->
  (ascii_only name = true ->
   PyFormat.all_digits name = false ->
   name <> "sender" -> name <> "context_results" ->
   render_answer (lit +:+ "{" +:+ name +:+ "}" +:+ rest) s ctx
   = Raise (KeyError name)) /\
  (PyFormat.all_digits name = true ->
   (String.length name <= 18)%nat ->
   render_answer (lit +:+ "{" +:+ name +:+ "}" +:+ rest) s ctx
   = Raise (IndexError ("Replacement index " +:+ PyFormat.index_text name +:+
                        " out of range for positional args tuple"))).
Proof.
  intros Hbf Hp.
  assert (render_answer (lit +:+ "{" +:+ name +:+ "}" +:+ rest) s ctx =
          match PyFormat.render_field
                  {| PyFormat.kw_sender := s;
                     PyFormat.kw_context_results := ctx |} name with
          | Ret v =>
              PyFormat.app_out lit
                (PyFormat.app_out v
                   (PyFormat.format_from
                      {| PyFormat.kw_sender := s;
                         PyFormat.kw_context_results := ctx |} None rest))
          | Raise e => Raise e
          | Unmodelled => Unmodelled
          end) as Hr.
  { unfold render_answer, PyFormat.format.
    rewrite (format_from_literal _ lit _ Hbf).
    rewrite (format_from_open _ name rest Hp).
    rewrite (format_from_field _ name "" rest Hp). rewrite append_empty_l.
    by destruct (PyFormat.render_field _ name). }
  rewrite Hr. unfold PyFormat.render_field.
  rewrite (split_dot_plain name Hp).
  split.
  - intros _ Hd Hs Hc. rewrite Hd. unfold PyFormat.lookup_kw.
    destruct (String.eqb_spec name "sender"); [contradiction|].
    destruct (String.eqb_spec name "context_results"); [contradiction|].
    reflexivity.
  - intros Hd Hlen. rewrite Hd.
    apply Nat.leb_le in Hlen. by rewrite Hlen.
Qed.

Lemma unknown_placeholder_raises_witness :
  render_answer ("Hi: " +:+ "{" +:+ "context" +:+ "}" +:+ "") "a@x.com" "C"
    = Raise (KeyError "context") /\
  render_answer ("Hello " +:+ "{" +:+ "0" +:+ "}" +:+ "!") "a@x.com" "C"
    = Raise (IndexError
               "Replacement index 0 out of range for positional args tuple") /\
  render_answer ("Hello " +:+ "{" +:+ "" +:+ "}" +:+ "!") "a@x.com" "C"
    = Raise (IndexError
               "Replacement index 0 out of range for positional args tuple") /\
  render_answer ("Hello " +:+ "{" +:+ "007" +:+ "}" +:+ "!") "a@x.com" "C"
    = Raise (IndexError
               "Replacement index 7 out of range for positional args tuple").
Proof.
  pose proof (unknown_placeholder_raises "Hi: " "context" "" "a@x.com" "C"
                eq_refl eq_refl) as [Hk _].
  pose proof (unknown_placeholder_raises "Hello " "0" "!" "a@x.com" "C"
                eq_refl eq_refl) as [_ H0].
  pose proof (unknown_placeholder_raises "Hello " "" "!" "a@x.com" "C"
                eq_refl eq_refl) as [_ He].
  pose proof (unknown_placeholder_raises "Hello " "007" "!" "a@x.com" "C"
                eq_refl eq_refl) as [_ H7].
  split; [|split; [|split]].
  - apply Hk; [reflexivity | reflexivity | discriminate | discriminate].
  - apply H0; [reflexivity | cbn; lia].
  - apply He; [reflexivity | cbn; lia].
  - apply H7; [reflexivity | cbn; lia].
Defined.

(** ** Credentials *)

Example credentials_from_env :
  Credentials.get_user_credentials
    (Credentials.mk_console
       {[ "EMAIL" := "me@gmail.com"; "PASSWORD" := "secret" ]} "" "" "") []
  = ([Credentials.IoPrint Credentials.banner; Credentials.IoLoadDotenv;
      Credentials.IoGetenv "EMAIL"; Credentials.IoGetenv "PASSWORD";
      Credentials.IoGetenv "RECIPIENT"],
     Ret (Some "me@gmail.com", Some "secret", None)).
Proof. vm_compute. reflexivity. Qed.

Example credentials_typed :
  Credentials.get_user_credentials
    (Credentials.mk_console {[ "EMAIL" := "me@gmail.com"; "RECIPIENT" := "r@x.com" ]}
       "  you@work.org " "pw" " to@x.com") []
  = ([Credentials.IoPrint Credentials.banner; Credentials.IoLoadDotenv;
      Credentials.IoGetenv "EMAIL"; Credentials.IoGetenv "PASSWORD";
      Credentials.IoGetenv "RECIPIENT";
      Credentials.IoInput "Enter your Gmail address: ";
      Credentials.IoPrint Credentials.gmail_warning;
      Credentials.IoGetpass "Enter your Gmail app password: ";
      Credentials.IoPrint "password:  pw";
      Credentials.IoInput "Enter recipient email address: "],
     Ret (Some "you@work.org", Some "pw", Some "to@x.com")).
Proof. vm_compute. reflexivity. Qed.

(** X5.  With a non-empty [EMAIL] and a non-empty [PASSWORD] in the environment,
    [get_user_credentials] returns them with the [RECIPIENT] of the
    environment, set or not, and asks nothing. *)
Theorem credentials_from_environment (c : Credentials.Console)
    (out : list Credentials.io) (e p : string) :
  Credentials.environ c !! "EMAIL" = Some e -> e <> "" ->
  Credentials.environ c !! "PASSWORD" = Some p -> p <> "" ->
  Credentials.get_user_credentials c out =
  (out ++ [Credentials.IoPrint Credentials.banner; Credentials.IoLoadDotenv;
           Credentials.IoGetenv "EMAIL"; Credentials.IoGetenv "PASSWORD";
           Credentials.IoGetenv "RECIPIENT"],
   Ret (Some e, Some p, Credentials.environ c !! "RECIPIENT")).
Proof.
  intros He Hne Hp Hnp.
  unfold Credentials.get_user_credentials,
    Credentials.get_user_credentials_from_file.
  rewrite He, Hp.
  destruct e; [contradiction|]. destruct p; [contradiction|].
  cbn [Credentials.truthy andb]. by rewrite <- app_assoc.
Qed.

Lemma credentials_from_environment_witness :
  Credentials.get_user_credentials
    (Credentials.mk_console
       {[ "EMAIL" := "me@gmail.com"; "PASSWORD" := "secret" ]} "" "" "") []
  = ([] ++ [Credentials.IoPrint Credentials.banner; Credentials.IoLoadDotenv;
            Credentials.IoGetenv "EMAIL"; Credentials.IoGetenv "PASSWORD";
            Credentials.IoGetenv "RECIPIENT"],
     Ret (Some "me@gmail.com", Some "secret",
          Credentials.environ
            (Credentials.mk_console
               {[ "EMAIL" := "me@gmail.com"; "PASSWORD" := "secret" ]} "" "" "")
            !! "RECIPIENT")).
Proof.
  apply (credentials_from_environment
           (Credentials.mk_console
              {[ "EMAIL" := "me@gmail.com"; "PASSWORD" := "secret" ]} "" "" "")
           [] "me@gmail.com" "secret");
    first [vm_compute; reflexivity | discriminate].
Defined.

(** X6.  When [EMAIL] or [PASSWORD] is missing or empty in the environment, all
    three values are asked for: the address and the recipient are returned
    stripped, the password as typed, and whatever the environment holds,
    its [RECIPIENT] included, is dropped.  The password is written to the
    output in clear, and the Gmail warning is written exactly when the
    stripped address does not end with ["@gmail.com"]. *)
Theorem credentials_prompted (c : Credentials.Console)
    (out : list Credentials.io) (te tp tr : string) :
  Credentials.truthy (Credentials.environ c !! "EMAIL") &&
  Credentials.truthy (Credentials.environ c !! "PASSWORD") = false ->
  ascii_only te = true -> ascii_only tr = true ->
  (forall h, Credentials.typed c
               (h ++ [Credentials.IoInput "Enter your Gmail address: "]) = inr te) ->
  (forall h, Credentials.typed c
               (h ++ [Credentials.IoGetpass "Enter your Gmail app password: "])
             = inr tp) ->
  (forall h, Credentials.typed c
               (h ++ [Credentials.IoInput "Enter recipient email address: "])
             = inr tr) ->
  Credentials.get_user_credentials c out =
  (out ++ [Credentials.IoPrint Credentials.banner; Credentials.IoLoadDotenv;
           Credentials.IoGetenv "EMAIL"; Credentials.IoGetenv "PASSWORD";
           Credentials.IoGetenv "RECIPIENT";
           Credentials.IoInput "Enter your Gmail address: "]
       ++ (if Credentials.endswith (Credentials.strip te) "@gmail.com"
           then [] else [Credentials.IoPrint Credentials.gmail_warning])
       ++ [Credentials.IoGetpass "Enter your Gmail app password: ";
           Credentials.IoPrint ("password:  " +:+ tp);
           Credentials.IoInput "Enter recipient email address: "],
   Ret (Some (Credentials.strip te), Some tp, Some (Credentials.strip tr))).
Proof.
  intros Henv _ _ He Hp Hr.
  unfold Credentials.get_user_credentials,
    Credentials.get_user_credentials_from_file.
  rewrite Henv. unfold Credentials.ask. rewrite He.
  destruct (Credentials.endswith (Credentials.strip te) "@gmail.com");
    cbn [negb]; rewrite Hp, Hr; rewrite <- !app_assoc; reflexivity.
Qed.

Lemma credentials_prompted_witness :
  snd (Credentials.get_user_credentials
         (Credentials.mk_console
            {[ "EMAIL" := "me@gmail.com"; "RECIPIENT" := "r@x.com" ]}
            "  you@work.org " "pw" " to@x.com") [])
  = Ret (Some "you@work.org", Some "pw", Some "to@x.com").
Proof.
  rewrite (credentials_prompted
             (Credentials.mk_console
                {[ "EMAIL" := "me@gmail.com"; "RECIPIENT" := "r@x.com" ]}
                "  you@work.org " "pw" " to@x.com")
             [] "  you@work.org " "pw" " to@x.com").
  - vm_compute. reflexivity.
  - vm_compute. reflexivity.
  - reflexivity.
  - reflexivity.
  - intros h. cbn. by rewrite last_snoc.
  - intros h. cbn. by rewrite last_snoc.
  - intros h. cbn. by rewrite last_snoc.
Defined.

(** X7.  The address of the knowledge base is never empty: when [WEAVIATE_URL]
    is unset or set to the empty string it is the local default, otherwise
    it is the value of the variable. *)
Theorem weaviate_url_default (c : Credentials.Console)
    (out : list Credentials.io) :
  snd (Credentials.weaviate_url c out) <> "" /\
  (Credentials.environ c !! "WEAVIATE_URL" = None \/
   Credentials.environ c !! "WEAVIATE_URL" = Some "" ->
   snd (Credentials.weaviate_url c out) = "http://localhost:8080") /\
  (forall u, Credentials.environ c !! "WEAVIATE_URL" = Some u -> u <> "" ->
   snd (Credentials.weaviate_url c out) = u).
Proof.
  unfold Credentials.weaviate_url, Credentials.get_weaviate_url_from_file.
  cbn [snd].
  destruct (Credentials.environ c !! "WEAVIATE_URL") as [[|a u]|];
    cbn [Credentials.truthy default from_option id].
  - split; [discriminate|]. split; [reflexivity|].
    intros u [= <-] Hne. contradiction.
  - split; [discriminate|]. split.
    + intros [H|H]; discriminate.
    + by intros u' [= <-] _.
  - split; [discriminate|]. split; [reflexivity|]. intros u. discriminate.
Qed.

Lemma weaviate_url_default_witness :
  snd (Credentials.weaviate_url
         (Credentials.mk_console {[ "WEAVIATE_URL" := "" ]} "" "" "") [])
    = "http://localhost:8080" /\
  snd (Credentials.weaviate_url
         (Credentials.mk_console {[ "WEAVIATE_URL" := "http://kb:8080" ]} "" "" "") [])
    = "http://kb:8080".
Proof.
  pose proof (weaviate_url_default
                (Credentials.mk_console {[ "WEAVIATE_URL" := "" ]} "" "" "") [])
    as (_ & Hd & _).
  pose proof (weaviate_url_default
                (Credentials.mk_console {[ "WEAVIATE_URL" := "http://kb:8080" ]}
                   "" "" "") [])
    as (_ & _ & Hu).
  split.
  - apply Hd. right. vm_compute. reflexivity.
  - apply Hu; [vm_compute; reflexivity | discriminate].
Defined.

(** ** [EmailSummary.from_dict] *)

(** X1.  [from_dict] returns a summary exactly when the dict has all six keys;
    otherwise it raises [KeyError] for the first missing key in the order
    [email_id], [subject], [sender], [date_sent], [folder], [body].  The
    summary copies the values, taking [message_id] from [email_id]; a body
    of [None] becomes the [Field] object, not the empty string. *)
Theorem from_dict_spec (data : gmap string (option string)) :
  (Forall (fun k => is_Some (data !! k)) Summary.keys <->
   exists s, Summary.from_dict data = Ret s) /\
  (forall s, Summary.from_dict data = Ret s ->
     data !! "email_id" = Some (Summary.message_id s) /\
     data !! "subject" = Some (Summary.subject s) /\
     data !! "sender" = Some (Summary.sender s) /\
     data !! "date_sent" = Some (Summary.date_sent s) /\
     data !! "folder" = Some (Summary.folder s) /\
     (forall text, data !! "body" = Some (Some text) <->
                   Summary.body s = Summary.BodyText text) /\
     (data !! "body" = Some None <->
      Summary.body s = Summary.BodyFieldObject)) /\
  (forall e, Summary.from_dict data = Raise e ->
     exists before k after,
       Summary.keys = before ++ k :: after /\
       e = KeyError k /\ data !! k = None /\
       Forall (fun k' => is_Some (data !! k')) before).
Proof.
  unfold Summary.from_dict, Summary.item, Summary.keys.
  rewrite !Forall_cons, Forall_nil.
  destruct (data !! "email_id") as [i|] eqn:Hi;
    [destruct (data !! "subject") as [s|] eqn:Hs;
     [destruct (data !! "sender") as [f|] eqn:Hf;
      [destruct (data !! "date_sent") as [d|] eqn:Hd;
       [destruct (data !! "folder") as [o|] eqn:Ho;
        [destruct (data !! "body") as [b|] eqn:Hb|]|]|]|]|].
  1: { split; [|split].
       - split; [intros _; eauto | intros _; repeat split; eauto].
       - intros x [= <-]. cbn.
         repeat split; try congruence; destruct b; try congruence; discriminate.
       - intros e; discriminate. }
  all: split; [|split];
    [ split;
      [ intros H; decompose [and] H;
        match goal with H' : is_Some None |- _ => by destruct H' end
      | intros [x Hx]; discriminate ]
    | intros x; discriminate
    | intros e [= <-] ].
  - exists ["email_id"; "subject"; "sender"; "date_sent"; "folder"], "body", [].
    repeat split; [exact Hb|].
    repeat constructor; by rewrite ?Hi, ?Hs, ?Hf, ?Hd, ?Ho.
  - exists ["email_id"; "subject"; "sender"; "date_sent"], "folder", ["body"].
    repeat split; [exact Ho|].
    repeat constructor; by rewrite ?Hi, ?Hs, ?Hf, ?Hd.
  - exists ["email_id"; "subject"; "sender"], "date_sent", ["folder"; "body"].
    repeat split; [exact Hd|].
    repeat constructor; by rewrite ?Hi, ?Hs, ?Hf.
  - exists ["email_id"; "subject"], "sender", ["date_sent"; "folder"; "body"].
    repeat split; [exact Hf|].
    repeat constructor; by rewrite ?Hi, ?Hs.
  - exists ["email_id"], "subject", ["sender"; "date_sent"; "folder"; "body"].
    repeat split; [exact Hs|].
    repeat constructor; by rewrite ?Hi.
  - exists [], "email_id",
      ["subject"; "sender"; "date_sent"; "folder"; "body"].
    repeat split; [exact Hi | constructor].
Qed.

Lemma from_dict_spec_witness :
  Summary.from_dict
    {[ "email_id" := Some "42"; "subject" := Some "Hi"; "sender" := Some "a@x.com";
       "date_sent" := Some "today"; "folder" := Some "INBOX"; "body" := None ]}
    = Ret {| Summary.message_id := Some "42"; Summary.subject := Some "Hi";
             Summary.sender := Some "a@x.com"; Summary.date_sent := Some "today";
             Summary.folder := Some "INBOX";
             Summary.body := Summary.BodyFieldObject |} /\
  Summary.from_dict {[ "email_id" := Some "42"; "body" := Some "text" ]}
    = Raise (KeyError "subject").
Proof.
  split; [vm_compute; reflexivity|].
  pose proof (from_dict_spec {[ "email_id" := Some "42"; "body" := Some "text" ]})
    as (_ & _ & H).
  destruct (H (KeyError "subject")) as (before & k & after & _);
    vm_compute; reflexivity.
Defined.

(** ** The shape of the context *)

Lemma length_append (a b : string) :
  String.length (a +:+ b) = (String.length a + String.length b)%nat.
Proof.
  induction a as [|c a IH]; [reflexivity|].
  rewrite append_cons. cbn [String.length]. by rewrite IH.
Qed.

Lemma joined_length (l : list ContextResult) :
  String.length (joined l) =
  sum_list (map (fun r => S (String.length (content r))) l).
Proof.
  induction l as [|r l IH]; [reflexivity|].
  cbn [joined map sum_list sum_list_with].
  rewrite !length_append, IH. cbn. lia.
Qed.

Lemma joined_ends_with_newline (l : list ContextResult) :
  l <> [] -> exists s, joined l = s +:+ newline.
Proof.
  induction l as [|r l IH]; [contradiction|]. intros _.
  destruct l as [|r' l].
  - exists (content r). cbn [joined]. by rewrite append_empty_r.
  - destruct IH as [s Hs]; [discriminate|].
    exists (content r +:+ newline +:+ s).
    change (joined (r :: r' :: l))
      with (content r +:+ newline +:+ joined (r' :: l)).
    rewrite Hs. by rewrite !append_assoc3.
Qed.

(** X20.  The context handed to the pattern is empty only when no result is
    confident; otherwise it ends with a line feed, and its length is that of
    the confident contents plus one character for each of them. *)
Theorem context_shape (results : list ContextResult) :
  (context_result_confident results = "" <->
   List.filter confident results = []) /\
  (List.filter confident results <> [] ->
   exists s, context_result_confident results = s +:+ newline) /\
  String.length (context_result_confident results) =
  sum_list (map (fun r => S (String.length (content r)))
              (List.filter confident results)).
Proof.
  rewrite context_result_confident_joined.
  split; [apply joined_empty|].
  split; [apply joined_ends_with_newline | apply joined_length].
Qed.

Lemma context_shape_witness :
  exists s, context_result_confident [result_3pm] = s +:+ newline.
Proof.
  pose proof (context_shape [result_3pm]) as (_ & H & _).
  apply H. vm_compute. discriminate.
Defined.

(** ** What the loop never does *)

Lemma poll_iteration_pass_events (W : World) (cfg : Config) :
  emits (fun e => is_pass_event e = true) (poll_iteration W cfg).
Proof.
  unfold poll_iteration, fetch_and_process, check_new_emails, process_message,
    get_answer_for_email, dispatch, draft_answer_for_email,
    send_answer_to_email, wait_with_quit.
  repeat first
    [ emits_step
    | match goal with
      | |- emits _ (match ?x with _ => _ end) => destruct x
      end ].
Qed.

(** X25.  The poll loop only fetches new messages, normalises bodies,
    searches, drafts or sends, and waits on the terminal.  It never connects
    or disconnects, never indexes a message or a document, never lists the
    collections or loads the configuration again, and never closes the
    knowledge base. *)
Theorem poll_loop_only_pass_events (W : World) (cfg : Config) (fuel : nat)
    (tr : trace) :
  exists evs,
    fst (poll_loop W cfg fuel tr) = tr ++ evs /\
    Forall (fun e => is_pass_event e = true) evs /\
    (EConnect ∉ evs) /\ (EDisconnect ∉ evs) /\ (EClose ∉ evs) /\
    (EListCollections ∉ evs) /\
    (forall path, ELoadConfig path ∉ evs) /\
    (forall ids coll, EProcessNewEmails ids coll ∉ evs) /\
    (forall path coll, EProcessDocument path coll ∉ evs).
Proof.
  assert (exists evs,
            fst (poll_loop W cfg fuel tr) = tr ++ evs /\
            Forall (fun e => is_pass_event e = true) evs) as (evs & Htr & Hevs).
  { revert tr. induction fuel as [|n IH]; intros tr; cbn [poll_loop].
    - exists []. by rewrite app_nil_r.
    - destruct (poll_iteration_pass_events W cfg tr) as (evs & Htr & Hevs).
      destruct (poll_iteration W cfg tr) as [tr1 o]; cbn [fst] in Htr; subst tr1.
      destruct o as [[|]|e|]; try by exists evs.
      destruct (IH (tr ++ evs)) as (evs' & Htr' & Hevs').
      exists (evs ++ evs'). rewrite Htr', app_assoc.
      split; [reflexivity | by apply Forall_app]. }
  exists evs. split; [exact Htr|]. split; [exact Hevs|].
  rewrite Forall_forall in Hevs.
  repeat split; repeat intros ?;
    match goal with H : _ ∈ evs |- _ => apply Hevs in H; discriminate end.
Qed.

(** X24.  When the start-up raises after both handles were created, for
    instance because the configuration cannot be loaded, the loop is not
    entered: the [finally] block disconnects and closes, and the run ends
    with the exception of the start-up. *)
Theorem startup_failure_cleans_up (W : World) (fuel : nat)
    (tr tr3 : trace) (e : exn) :
  w_initialize_email_profile W (tr ++ [EInitializeEmailProfile]) = inr tt ->
  w_initialize_knowledge_base_manager W
    ((tr ++ [EInitializeEmailProfile]) ++ [EInitializeKnowledgeBaseManager])
    = inr tt ->
  bootstrap W
    ((tr ++ [EInitializeEmailProfile]) ++ [EInitializeKnowledgeBaseManager])
    = (tr3, Raise e) ->
  w_disconnect W (tr3 ++ [EDisconnect]) = inr tt ->
  w_close W ((tr3 ++ [EDisconnect]) ++ [EClose]) = inr tt ->
  email_assistant_workflow W fuel tr = (tr3 ++ [EDisconnect; EClose], Some (Raise e)).
Proof.
  intros H1 H2 Hb Hd Hc.
  unfold email_assistant_workflow, initialize_email_profile,
    initialize_knowledge_base_manager, call.
  rewrite H1, H2, Hb, finish_run, cleanup_trace, Hd, Hc.
  by rewrite <- app_assoc.
Qed.

Lemma startup_failure_cleans_up_witness :
  email_assistant_workflow world_no_config 3 [] =
  ([EInitializeEmailProfile; EInitializeKnowledgeBaseManager; EListCollections;
    ELoadConfig "email_assistant_config.json"] ++ [EDisconnect; EClose],
   Some (Raise (ValueError "Expecting value: line 1 column 1 (char 0)"))).
Proof.
  apply (startup_failure_cleans_up world_no_config 3 []
           [EInitializeEmailProfile; EInitializeKnowledgeBaseManager;
            EListCollections; ELoadConfig "email_assistant_config.json"]
           (ValueError "Expecting value: line 1 column 1 (char 0)"));
    reflexivity.
Defined.

(** ** The whole path of one message *)

(** X26.  For a sender whose entry has a pattern of plain text around
    [{sender}] and [{context_results}], and a search with at least one
    confident result, the processing of the message makes three calls: the
    normalisation, the search, and one draft or send (a draft exactly when
    the answer type is ["draft"]) to the sender with the subject
    ["RE: " + subject] and, as body, the pattern with the address and the
    confident contents substituted. *)
Theorem process_message_composes (W : World) (cfg : Config)
    (m : EmailMessageModel) (tr : trace) (entry : gmap string string)
    (l1 l2 l3 t q : string) (results : list ContextResult) :
  cfg_answer_patterns cfg !! email (sender m) = Some entry ->
  entry !! "answer_pattern"
    = Some (l1 +:+ "{sender}" +:+ l2 +:+ "{context_results}" +:+ l3) ->
  entry !! "answer_type" = Some t ->
  brace_free l1 = true -> brace_free l2 = true -> brace_free l3 = true ->
  w_clean_email_body W (tr ++ [ECleanEmailBody m]) = inr q ->
  w_search W ((tr ++ [ECleanEmailBody m]) ++ [ESearch q "Email" HYBRID 3])
    = inr results ->
  List.filter confident results <> [] ->
  let answer :=
    l1 +:+ email (sender m) +:+ l2 +:+
    joined (List.filter confident results) +:+ l3 in
  fst (process_message W cfg m tr) =
  tr ++ [ECleanEmailBody m; ESearch q "Email" HYBRID 3;
         if String.eqb t "draft"
         then ECreateDraft (sender m) ("RE: " +:+ subject m) answer
         else ESendMessageDirect (sender m) ("RE: " +:+ subject m) answer].
Proof.
  intros He Hp Ht B1 B2 B3 Hq Hr Hk answer.
  assert (resolve_answer_pattern cfg m
          = Ret (l1 +:+ "{sender}" +:+ l2 +:+ "{context_results}" +:+ l3)) as Hres.
  { unfold resolve_answer_pattern. by rewrite He, Hp. }
  unfold process_message, bind.
  rewrite (get_answer_for_email_run W cfg m "Email" tr _ q results Hres Hq Hr).
  rewrite answer_from_results_joined.
  destruct (List.filter confident results) as [|k ks] eqn:Hkept;
    [contradiction|].
  rewrite (render_answer_substitutes l1 l2 l3 _ _ B1 B2 B3).
  fold answer.
  unfold dispatch, bind, lift, wants_draft. rewrite He, Ht.
  unfold draft_answer_for_email, send_answer_to_email, call, ret.
  destruct (String.eqb t "draft"); cbn [fst].
  - destruct (w_create_draft W _); cbn [fst]; by rewrite <- !app_assoc.
  - destruct (w_send_message_direct W _); cbn [fst]; by rewrite <- !app_assoc.
Qed.

Lemma process_message_composes_witness :
  fst (process_message world_send cfg_send msg_a []) =
  [] ++ [ECleanEmailBody msg_a;
         ESearch "When is the meeting?" "Email" HYBRID 3;
         ESendMessageDirect (addr "a@x.com") "RE: Meeting?"
           ("Hi a@x.com, info: Meeting is at 3pm" +:+ newline)].
Proof.
  apply (process_message_composes world_send cfg_send msg_a []
           (mk_entry "Hi {sender}, info: {context_results}" "send")
           "Hi " ", info: " "" "send" "When is the meeting?" [result_3pm]);
    first [vm_compute; reflexivity | vm_compute; discriminate].
Defined.
